(** * Emergence Explorer chat: conversation history and emergence score

    A shallow embedding of [src/index.tsx]: the global [appState], the part
    of the DOM the chat writes to, [sendMessage], [getAIResponse],
    [addMessage], [setLoading] and [analyzeMessage], followed by the
    properties of the history trimming rule, of the error paths and of the
    keyword score.

    JavaScript strings are sequences of UTF-16 code units and are modelled
    as [list N].  What the browser decides, [String.prototype.toLowerCase]
    and the [Canonicalize] operation of a regular expression with the [i]
    flag (Unicode tables), the text of a [TypeError] and the elements that
    the markup of a message creates, are parameters ([Host]); the facts
    about them that a proof relies on are stated as hypotheses and are
    instantiated on a host with the Latin-1 case tables. *)

From Stdlib.Strings Require Import String.
From Stdlib.Strings Require Byte.
From Stdlib Require Import List NArith ZArith Bool Lia.
From Equations Require Import Equations.
Import ListNotations.

Set Implicit Arguments.

(** ** Strings *)

Definition code_unit := N.
Definition jsstring := list code_unit.

(** A value that the code takes for a string and that is [undefined] at
    times: the [text] of a response of the model. *)
Inductive Value := Str (s : jsstring) | Undefined.
Coercion Str : jsstring >-> Value.

Module Utf.

(** Decoding of the UTF-8 bytes of a literal of this file into code
    points, and of code points into UTF-16 code units, so that the
    literals of the source can be written as they are. *)

Local Open Scope N_scope.

Fixpoint code_points (bs : list N) : list N :=
  match bs with
  | [] => []
  | b0 :: r0 =>
    if b0 <? 128 then b0 :: code_points r0
    else
      match r0 with
      | [] => []
      | b1 :: r1 =>
        if b0 <? 224 then ((b0 mod 32) * 64 + b1 mod 64) :: code_points r1
        else
          match r1 with
          | [] => []
          | b2 :: r2 =>
            if b0 <? 240
            then ((b0 mod 16) * 4096 + (b1 mod 64) * 64 + b2 mod 64)
                   :: code_points r2
            else
              match r2 with
              | [] => []
              | b3 :: r3 =>
                ((b0 mod 8) * 262144 + (b1 mod 64) * 4096
                 + (b2 mod 64) * 64 + b3 mod 64) :: code_points r3
              end
          end
      end
  end.

Definition code_units_of_point (cp : N) : list code_unit :=
  if cp <? 65536 then [cp]
  else [55296 + (cp - 65536) / 1024; 56320 + (cp - 65536) mod 1024].

Definition bytes (s : String.string) : list N :=
  map (fun b => N.of_nat (Byte.to_nat b)) (String.list_byte_of_string s).

End Utf.

(** The JavaScript string written by a literal. *)
Definition js (s : String.string) : jsstring :=
  flat_map Utf.code_units_of_point (Utf.code_points (Utf.bytes s)).
Arguments js s%_string.

(** ** The host: case conversion, error texts and markup *)

Class Host := {
  (** [String.prototype.toLowerCase] *)
  toLowerCase : jsstring -> jsstring;
  (** [Canonicalize(ch)] of a pattern compiled with [ignoreCase] and
      without [unicode]: how the matcher folds a code unit before it
      compares it *)
  Canonicalize : code_unit -> code_unit;
  (** the [message] of the [TypeError] thrown when the property of that
      name is read on [undefined] *)
  TypeError_message : jsstring -> jsstring;
  (** [without_element id html]: when the elements that the markup [html]
      creates hold one with that [id], the markup left once the first of
      them, in document order, is removed; [None] when they hold none *)
  without_element : jsstring -> jsstring -> option jsstring
}.

(** ** Regular expressions built from a literal keyword *)

Module RegExp.

Record t := make { source : jsstring; global : bool; ignoreCase : bool }.

(** The characters that have a meaning in a pattern; a source without
    them is matched character by character. *)
Definition syntax_characters : jsstring :=
  js "^$\.*+?()[]{}|/".

Definition literal (src : jsstring) : bool :=
  forallb (fun c => negb (existsb (N.eqb c) syntax_characters)) src.

Section Matcher.
Context {host : Host}.

(** Comparison of a pattern character with an input character. *)
Definition char_match (re : t) (p c : code_unit) : bool :=
  if ignoreCase re then (Canonicalize p =? Canonicalize c)%N
  else (p =? c)%N.

(** Does the pattern match the input at its first position? *)
Fixpoint matches_at (re : t) (pat s : jsstring) : bool :=
  match pat, s with
  | [], _ => true
  | _ :: _, [] => false
  | p :: pat', c :: s' => char_match re p c && matches_at re pat' s'
  end.

(** The successive matches of [String.prototype.match] with a global
    pattern: the search starts at [lastIndex = 0], takes the leftmost
    match at or after [lastIndex] and resumes at the end of that
    match.  [idx] is the index of the head of [s] in the whole input
    and [skip] the number of characters still inside the previous
    match.  An empty match is followed by an advance of one. *)
Fixpoint exec_from (re : t) (skip idx : nat) (s : jsstring) : list nat :=
  match s with
  | [] =>
    match skip, source re with
    | O, [] => [idx]
    | _, _ => []
    end
  | _ :: s' =>
    match skip with
    | S k => exec_from re k (S idx) s'
    | O =>
      if matches_at re (source re) s
      then idx :: exec_from re (Nat.pred (length (source re))) (S idx) s'
      else exec_from re 0 (S idx) s'
    end
  end.

Definition match_indices (re : t) (s : jsstring) : list nat :=
  exec_from re 0 0 s.

End Matcher.

End RegExp.

(** [new RegExp(keyword, 'gi')] *)
Definition new_RegExp_gi (pattern : jsstring) : RegExp.t :=
  RegExp.make pattern true true.

Definition substring (s : jsstring) (from to : nat) : jsstring :=
  firstn (to - from) (skipn from s).

(** [s.match(re)] for a global [re]: the array of the matched substrings,
    or [null] ([None]) when there is none. *)
Definition String_match {host : Host} (s : jsstring) (re : RegExp.t)
  : option (list jsstring) :=
  match RegExp.match_indices re s with
  | [] => None
  | found =>
    Some (map (fun i => substring s i (i + length (RegExp.source re))) found)
  end.

(** [x || []] *)
Definition or_empty {A} (x : option (list A)) : list A :=
  match x with
  | Some a => a
  | None => []
  end.

(** ** Data model *)

Inductive Role := user | assistant.

(** An element of [appState.conversationHistory]. *)
Record Turn := { role : Role; content : Value }.

(** The global [appState].  Numbers are integers here: the score is a sum
    of match counts weighted by 15 and 10, far below 2^53, where the
    arithmetic of doubles is exact. *)
Record AppState := {
  startTime : option Z;
  sessionTime : Z;
  emergenceScore : Z;
  isLoading : bool;
  conversationHistory : list Turn
}.

(** The argument of [addMessage]. *)
Inductive MessageType := human | ai | system.

(** A child of the [chat-messages] container: a [div] whose class is
    [message human], [message ai] or [message system], made by
    [addMessage], or the [div] of class [message thinking], made by
    [showThinkingMessage]. *)
Inductive MessageClass := message (type : MessageType) | thinking.

Record Element := { className : MessageClass; innerHTML : jsstring }.

(** The [emergence-indicator]: whether it carries the class [active],
    and how many of the timeouts set by [updateAnalytics] to remove that
    class have not run yet. *)
Record Indicator := { active : bool; removals : nat }.

(** The part of the page the chat reads and writes: the text of
    [chat-input], the children of [chat-messages] when the page has that
    container, and [emergence-indicator] when the page has it. *)
Record Document := {
  chat_input : jsstring;
  chat_messages : option (list Element);
  emergence_indicator : option Indicator
}.

Record World := { appState : AppState; document : Document }.

(** A thrown value; the code reads its [message]. *)
Record Error := { error_message : jsstring }.

(** What the request to the model is made of and how it ends. *)
Inductive ContentRole := role_model | role_user.
Record Content := { content_role : ContentRole; parts : list Value }.

(** The promise of [generateContent] is fulfilled with a response, whose
    [text] is a string or [undefined], or rejected with an error. *)
Inductive Response := Resolved (text : Value) | Rejected (error : Error).

(** [ai.models.generateContent], as far as the chat sees it. *)
Definition Collaborator := list Content -> Response.

(** ** Computations that change the world and may throw *)

Inductive Completion (A : Type) := Normal (a : A) | Throw (e : Error).
Arguments Normal {A} a.
Arguments Throw {A} e.

Definition M (A : Type) := World -> Completion A * World.

Definition ret {A} (a : A) : M A := fun w => (Normal a, w).
Definition throw {A} (e : Error) : M A := fun w => (Throw e, w).
Definition bind {A B} (m : M A) (k : A -> M B) : M B :=
  fun w =>
    match m w with
    | (Normal a, w') => k a w'
    | (Throw e, w') => (Throw e, w')
    end.
Definition try_catch {A} (body : M A) (handler : Error -> M A) : M A :=
  fun w =>
    match body w with
    | (Normal a, w') => (Normal a, w')
    | (Throw e, w') => handler e w'
    end.
Definition get : M World := fun w => (Normal w, w).
Definition modify_app (f : AppState -> AppState) : M unit :=
  fun w => (Normal tt, {| appState := f (appState w); document := document w |}).
Definition modify_document (f : Document -> Document) : M unit :=
  fun w => (Normal tt, {| appState := appState w; document := f (document w) |}).

Declare Scope js_scope.
Delimit Scope js_scope with js.
Notation "x <- m ;; k" := (bind m (fun x => k))
  (at level 61, m at next level, right associativity) : js_scope.
Notation "m ;; k" := (bind m (fun _ => k))
  (at level 61, right associativity) : js_scope.
Bind Scope js_scope with M.

(** The world a computation ends in. *)
Definition exec {A} (m : M A) (w : World) : World := snd (m w).

(** ** The program

    [sendMessage] is asynchronous and is suspended once, while the
    request to the model is under way.  It is modelled as one function of
    the world and of the outcome of the request: the handlers that can run
    in between leave the history, the transcript and the flag as they are
    (a second [sendMessage] returns at its guard, since the flag is set
    before the request); the callbacks of the timers, which can run in
    between as well, change [sessionTime] and the indicator only.  What
    is written to the console and the resizing of the input field are
    left out. *)

Definition initialAppState : AppState :=
  {| startTime := None; sessionTime := 0; emergenceScore := 0;
     isLoading := false; conversationHistory := [] |}.

Definition set_isLoading (b : bool) (a : AppState) : AppState :=
  {| startTime := startTime a; sessionTime := sessionTime a;
     emergenceScore := emergenceScore a; isLoading := b;
     conversationHistory := conversationHistory a |}.

Definition set_emergenceScore (z : Z) (a : AppState) : AppState :=
  {| startTime := startTime a; sessionTime := sessionTime a;
     emergenceScore := z; isLoading := isLoading a;
     conversationHistory := conversationHistory a |}.

Definition set_conversationHistory (h : list Turn) (a : AppState) : AppState :=
  {| startTime := startTime a; sessionTime := sessionTime a;
     emergenceScore := emergenceScore a; isLoading := isLoading a;
     conversationHistory := h |}.

Definition set_chat_input (v : jsstring) (d : Document) : Document :=
  {| chat_input := v; chat_messages := chat_messages d;
     emergence_indicator := emergence_indicator d |}.

Definition set_chat_messages (c : option (list Element)) (d : Document)
  : Document :=
  {| chat_input := chat_input d; chat_messages := c;
     emergence_indicator := emergence_indicator d |}.

Definition set_emergence_indicator (i : option Indicator) (d : Document)
  : Document :=
  {| chat_input := chat_input d; chat_messages := chat_messages d;
     emergence_indicator := i |}.

(** *** Library functions of the language *)

Definition LF : code_unit := 10%N.
Definition QUOTE : code_unit := 34%N.

(** [WhiteSpace] and [LineTerminator] code points, which
    [String.prototype.trim] removes at both ends. *)
Definition isWhiteSpace (c : code_unit) : bool :=
  existsb (N.eqb c)
    [9; 10; 11; 12; 13; 32; 160; 5760; 8192; 8193; 8194; 8195; 8196; 8197;
     8198; 8199; 8200; 8201; 8202; 8232; 8233; 8239; 8287; 12288; 65279]%N.

Fixpoint trimStart (s : jsstring) : jsstring :=
  match s with
  | c :: s' => if isWhiteSpace c then trimStart s' else s
  | [] => []
  end.

Definition String_trim (s : jsstring) : jsstring :=
  rev (trimStart (rev (trimStart s))).

(** [Array.prototype.slice(start)] *)
Definition Array_slice {A} (a : list A) (start : Z) : list A :=
  let len := Z.of_nat (length a) in
  let k := if (start <? 0)%Z then Z.max (len + start) 0 else Z.min start len in
  skipn (Z.to_nat k) a.

(** [content.replace(/\n/g, '<br>')] *)
Fixpoint replace_newlines (s : jsstring) : jsstring :=
  match s with
  | [] => []
  | c :: s' =>
    if (c =? LF)%N then js "<br>" ++ replace_newlines s'
    else c :: replace_newlines s'
  end.

(** [!message] on a string *)
Definition falsy (s : jsstring) : bool :=
  match s with
  | [] => true
  | _ => false
  end.

(** *** Chat messages *)

Local Open Scope js_scope.

(** The [div] that [addMessage] creates. *)
Definition messageDiv (content : jsstring) (type : MessageType) : Element :=
  {| className := message type; innerHTML := replace_newlines content |}.

(** The page after [appendChild] on the container, when it has one. *)
Definition shows (e : Element) (d : Document) : Document :=
  match chat_messages d with
  | Some children => set_chat_messages (Some (children ++ [e])) d
  | None => d
  end.

Definition thinking_message : jsstring := js "thinking-message".

(** The [id] of a child of the container: [showThinkingMessage] gives
    one to its [div], [addMessage] gives none. *)
Definition id (e : Element) : jsstring :=
  match className e with
  | thinking => thinking_message
  | message _ => []
  end.

(** The [div] that [showThinkingMessage] creates. *)
Definition thinkingDiv : Element :=
  {| className := thinking;
     innerHTML := js "<span class=" ++ [QUOTE] ++ js "loading" ++ [QUOTE]
                  ++ js "></span> Gemini denkt nach..." |}.

Definition showThinkingMessage : M unit :=
  modify_document (fun d =>
    match chat_messages d with
    | Some children => set_chat_messages (Some (children ++ [thinkingDiv])) d
    | None => d
    end).

Definition has_id (i : jsstring) (e : Element) : bool :=
  if list_eq_dec N.eq_dec (id e) i then true else false.

Section Page.
Context {host : Host}.

(** The error thrown by reading a property of [undefined]. *)
Definition TypeError (property : jsstring) : Error :=
  {| error_message := TypeError_message property |}.

(** [addMessage]: without container nothing happens; otherwise
    [content.replace] fails on [undefined], before the new [div] is
    appended. *)
Definition addMessage (content : Value) (type : MessageType) : M unit :=
  w <- get;;
  match chat_messages (document w) with
  | None => ret tt
  | Some _ =>
    match content with
    | Str content => modify_document (shows (messageDiv content type))
    | Undefined => throw (TypeError (js "replace"))
    end
  end.

(** [getElementById(i).remove()]: the first element with that [id], in
    document order, is taken out.  It is a child of the container, or
    an element created inside an earlier child by the markup of its
    message. *)
Fixpoint remove_by_id (i : jsstring) (children : list Element)
  : list Element :=
  match children with
  | [] => []
  | e :: rest =>
    if has_id i e then rest
    else
      match without_element i (innerHTML e) with
      | Some html => {| className := className e; innerHTML := html |} :: rest
      | None => e :: remove_by_id i rest
      end
  end.

Definition hideThinkingMessage : M unit :=
  modify_document (fun d =>
    match chat_messages d with
    | Some children =>
      set_chat_messages (Some (remove_by_id thinking_message children)) d
    | None => d
    end).

End Page.

(** [setLoading]; what it changes on the send button and the input field
    (disabled, hidden) is presentation and is left out. *)
Definition setLoading (isLoading : bool) : M unit :=
  modify_app (set_isLoading isLoading).

(** The texts shown by the two [catch] blocks:
    [`❌ Fehler bei der Gemini API: ${error.message}`] in [getAIResponse] and
    [`❌ Fehler: ${error.message}\n\nBitte versuche es später nochmal.`] in
    [sendMessage]. *)
Definition api_error_text (error : Error) : jsstring :=
  js "❌ Fehler bei der Gemini API: " ++ error_message error.

Definition retry_error_text (error : Error) : jsstring :=
  js "❌ Fehler: " ++ error_message error ++ [LF; LF]
  ++ js "Bitte versuche es später nochmal.".

(** *** Emergence score *)

Definition emergenceKeywords : list jsstring :=
  [js "überraschend"; js "unerwartet"; js "emergent"; js "plötzlich";
   js "spontan"; js "kreativ"; js "innovation"; js "neu"; js "anders";
   js "durchbruch"; js "inspiration"; js "verbindung"; js "zusammenhang";
   js "verknüpfung"; js "kombination"; js "selbstreflexion"; js "meta-ebene";
   js "paradox"; js "philosophie"].

Definition surpriseWords : list jsstring :=
  [js "überrasch"; js "wow"; js "verblüff"; js "erstaunlich"; js "!"].

(** [updateAnalytics]: when the score is above 40 the class [active] is
    set and a timeout is registered that removes it 3000 ms later. *)
Definition updateAnalytics : M unit :=
  w <- get;;
  match emergence_indicator (document w) with
  | None => ret tt
  | Some indicator =>
    if (40 <? emergenceScore (appState w))%Z
    then modify_document
           (set_emergence_indicator
              (Some {| active := true; removals := S (removals indicator) |}))
    else ret tt
  end.

(** The callback of a timeout registered by [updateAnalytics], when it
    runs: [indicator.classList.remove('active')]. *)
Definition indicator_timeout : M unit :=
  modify_document (fun d =>
    match emergence_indicator d with
    | Some indicator =>
      match removals indicator with
      | S pending =>
        set_emergence_indicator
          (Some {| active := false; removals := pending |}) d
      | O => d
      end
    | None => d
    end).

Section Scorer.
Context {host : Host}.

(** [(lowerMessage.match(new RegExp(word, 'gi')) || []).length] *)
Definition matches (lowerMessage word : jsstring) : Z :=
  Z.of_nat (length (or_empty (String_match lowerMessage (new_RegExp_gi word)))).

Definition emergencePoints (lowerMessage : jsstring) : Z :=
  fold_left
    (fun emergencePoints keyword =>
       emergencePoints + matches lowerMessage keyword * 15)%Z
    emergenceKeywords 0%Z.

Definition surprises (lowerMessage : jsstring) : Z :=
  fold_left (fun count word => count + matches lowerMessage word)%Z
    surpriseWords 0%Z.

(** [analyzeMessage]; [message.toLowerCase()] fails on [undefined]. *)
Definition analyzeMessage (message : Value) : M unit :=
  match message with
  | Undefined => throw (TypeError (js "toLowerCase"))
  | Str text =>
    let lowerMessage := toLowerCase text in
    modify_app
      (set_emergenceScore
         (Z.min (emergencePoints lowerMessage + surprises lowerMessage * 10)
                100));;
    updateAnalytics
  end.

(** The score [analyzeMessage] leaves in [appState]. *)
Definition analyze (text : jsstring) (w : World) : Z :=
  emergenceScore (appState (exec (analyzeMessage text) w)).

(** *** Conversation *)

Definition push (t : Turn) : M unit :=
  modify_app (fun a =>
    set_conversationHistory (conversationHistory a ++ [t]) a).

(** The trimming rule of [getAIResponse]. *)
Definition trim (history : list Turn) : list Turn :=
  if (20 <? length history)%nat then Array_slice history (-18) else history.

Definition toContent (msg : Turn) : Content :=
  {| content_role :=
       match role msg with assistant => role_model | user => role_user end;
     parts := [content msg] |}.

(** [(await ai.models.generateContent(...)).text] *)
Definition await (r : Response) : M Value :=
  match r with
  | Resolved text => ret text
  | Rejected error => throw error
  end.

Definition getAIResponse (generateContent : Collaborator) : M unit :=
  w <- get;;
  let contents := map toContent (conversationHistory (appState w)) in
  try_catch
    (aiMessage <- await (generateContent contents);;
     push {| role := assistant; content := aiMessage |};;
     modify_app (fun a => set_conversationHistory (trim (conversationHistory a)) a);;
     addMessage aiMessage ai;;
     analyzeMessage aiMessage)
    (fun error =>
       addMessage (api_error_text error) system;;
       throw error).

Definition sendMessage (generateContent : Collaborator) : M unit :=
  w <- get;;
  let message := String_trim (chat_input (document w)) in
  if falsy message || isLoading (appState w) then ret tt
  else
    addMessage message human;;
    modify_document (set_chat_input []);;
    push {| role := user; content := message |};;
    setLoading true;;
    showThinkingMessage;;
    try_catch
      (getAIResponse generateContent)
      (fun error => addMessage (retry_error_text error) system);;
    setLoading false;;
    hideThinkingMessage.

Definition sendSuggestion (text : jsstring) (generateContent : Collaborator)
  : M unit :=
  modify_document (set_chat_input text);;
  sendMessage generateContent.

Definition initiateConversation : M unit :=
  let firstAIMessage := js "Weißt du eigentlich, was Emergenz bedeutet?" in
  addMessage firstAIMessage ai;;
  push {| role := assistant; content := firstAIMessage |}.

End Scorer.

(** ** A host with the case tables of Latin-1

    Upper-case letters are [A]-[Z] and U+00C0-U+00DE without the
    multiplication sign; their lower-case forms lie 32 above.  Code units
    outside Latin-1 are left as they are.  On strings of Latin-1 this is
    what [toLowerCase] and [Canonicalize] do.  The text of a [TypeError]
    is the one of V8, and of the elements that markup can create the
    host knows one shape, [<i id=...>...</i>]. *)

Module Latin1.

Local Open Scope N_scope.

Definition is_upper (c : code_unit) : bool :=
  ((65 <=? c) && (c <=? 90))
  || ((192 <=? c) && (c <=? 222) && negb (c =? 215)).

Definition is_lower (c : code_unit) : bool :=
  ((97 <=? c) && (c <=? 122))
  || ((224 <=? c) && (c <=? 254) && negb (c =? 247)).

Definition lower (c : code_unit) : code_unit :=
  if is_upper c then c + 32 else c.

Definition upper (c : code_unit) : code_unit :=
  if is_lower c then c - 32 else c.

Fixpoint begins (p s : jsstring) : bool :=
  match p, s with
  | [], _ => true
  | _ :: _, [] => false
  | x :: p', c :: s' => (x =? c) && begins p' s'
  end.

(** What follows the end tag of the element, or the end of the markup. *)
Fixpoint after_end_tag (s : jsstring) : jsstring :=
  match s with
  | [] => []
  | _ :: rest => if begins (js "</i>") s then skipn 4 s else after_end_tag rest
  end.

Fixpoint cut_element (start_tag html : jsstring) : option jsstring :=
  match html with
  | [] => None
  | c :: rest =>
    if begins start_tag html
    then Some (after_end_tag (skipn (length start_tag) html))
    else option_map (cons c) (cut_element start_tag rest)
  end.

Definition start_tag (i : jsstring) : jsstring :=
  js "<i id=" ++ [34] ++ i ++ [34] ++ js ">".

#[export] Instance host : Host :=
  {| toLowerCase := map lower;
     Canonicalize := upper;
     TypeError_message := fun property =>
       js "Cannot read properties of undefined (reading '" ++ property
       ++ js "')";
     without_element := fun i html => cut_element (start_tag i) html |}.

End Latin1.

(** ** Sessions *)

(** The page as it is loaded and the state [init] leaves behind, before
    the first message of the model: an empty input field, an empty
    transcript, the indicator switched off. *)
Definition page : Document :=
  {| chat_input := []; chat_messages := Some [];
     emergence_indicator := Some {| active := false; removals := 0 |} |}.

Definition loaded : World := {| appState := initialAppState; document := page |}.

(** The user types [text] and submits; the request to the model ends as
    [generateContent] says. *)
Record Submission := { typed : jsstring; generateContent : Collaborator }.

Definition submit {host : Host} (w : World) (s : Submission) : World :=
  exec (sendSuggestion (typed s) (generateContent s)) w.

Definition session {host : Host} (submissions : list Submission) : World :=
  fold_left submit submissions (exec initiateConversation loaded).

(** ** Observations used in the statements *)

Definition History (w : World) : list Turn := conversationHistory (appState w).

(** The request [getAIResponse] sends for a history. *)
Definition toModelFormat (history : list Turn) : list Content :=
  map toContent history.

Definition is_system_entry (e : Element) : bool :=
  match className e with
  | message system => true
  | _ => false
  end.

(** The number of system entries shown in the transcript. *)
Definition system_entries (w : World) : nat :=
  match chat_messages (document w) with
  | Some children => length (filter is_system_entry children)
  | None => 0
  end.

(** The transcript after one more message. *)
Definition shown (content : jsstring) (type : MessageType)
  (transcript : option (list Element)) : option (list Element) :=
  option_map (fun children => children ++ [messageDiv content type]) transcript.

(** The turn [sendMessage] appends for the text in the input field. *)
Definition userTurn (w : World) : Turn :=
  {| role := user; content := String_trim (chat_input (document w)) |}.

(** The condition under which [sendMessage] goes past its first line. *)
Definition passes_guard (w : World) : Prop :=
  falsy (String_trim (chat_input (document w))) = false
  /\ isLoading (appState w) = false.

(** ** The score in the words of the specification

    A second definition of the score, to be compared with the one of the
    code: keywords are counted as substrings of the lower-cased text,
    leftmost first and without overlap. *)

Fixpoint starts_with (keyword s : jsstring) : bool :=
  match keyword, s with
  | [], _ => true
  | _ :: _, [] => false
  | k :: keyword', c :: s' => (k =? c)%N && starts_with keyword' s'
  end.

Equations occurrences (keyword s : jsstring) : nat by wf (length s) lt :=
occurrences keyword [] := 0;
occurrences keyword (c :: s') with starts_with keyword (c :: s') := {
  | true := S (occurrences keyword (skipn (Nat.pred (length keyword)) s'));
  | false := occurrences keyword s' }.
Next Obligation. rewrite length_skipn. lia. Qed.

Definition total_occurrences (words : list jsstring) (s : jsstring) : nat :=
  list_sum (map (fun word => occurrences word s) words).

Definition spec_analyze {host : Host} (text : jsstring) : Z :=
  let lowered := toLowerCase text in
  let emergencePoints := (15 * Z.of_nat (total_occurrences emergenceKeywords lowered))%Z in
  let surprises := Z.of_nat (total_occurrences surpriseWords lowered) in
  Z.min (emergencePoints + surprises * 10) 100.

(** Does the keyword occur somewhere in [s]? *)
Fixpoint occurs_in (keyword s : jsstring) : bool :=
  starts_with keyword s
  || match s with
     | [] => false
     | _ :: s' => occurs_in keyword s'
     end.

(** The characters the keywords and the surprise markers are made of. *)
Definition alphabet : jsstring := concat (emergenceKeywords ++ surpriseWords).

(** The number of matches the code counts for a list of words. *)
Definition total_matches {host : Host} (words : list jsstring) (lowerMessage : jsstring) : Z :=
  fold_right Z.add 0%Z (map (matches lowerMessage) words).

(** A string in which the case folding of the matcher identifies no
    character with a character of the keywords other than itself. *)
Definition folded {host : Host} (s : jsstring) : Prop :=
  forall c p, In c s -> In p alphabet -> Canonicalize p = Canonicalize c -> p = c.

(** ** Worlds and collaborators of the examples *)

(** The world after the first message of the model. *)
Definition greeted {host : Host} : World := exec initiateConversation loaded.

(** The user has typed [text] into the input field. *)
Definition typing (text : jsstring) (w : World) : World :=
  {| appState := appState w; document := set_chat_input text (document w) |}.

Definition failing (reason : jsstring) : Collaborator :=
  fun _ => Rejected {| error_message := reason |}.

Definition answering (text : jsstring) : Collaborator :=
  fun _ => Resolved text.

(** A response that carries no text. *)
Definition textless : Collaborator :=
  fun _ => Resolved Undefined.

(** A message that is answered, and one whose request fails. *)
Definition exchange : Submission :=
  {| typed := js "Und dann?"; generateContent := answering (js "Wow, das ist neu!") |}.

Definition unanswered : Submission :=
  {| typed := js "Hallo?"; generateContent := failing (js "quota exceeded") |}.

(** ** The rest of the page: the state during a request and the timer *)

(** The children of the [chat-messages] container. *)
Definition transcript (w : World) : list Element :=
  match chat_messages (document w) with
  | Some children => children
  | None => []
  end.

(** An entry of the transcript that [getElementById] passes over when
    it looks for the thinking message: it is not the thinking message
    and its markup holds no element with that id. *)
Definition inert {host : Host} (e : Element) : Prop :=
  className e <> thinking
  /\ without_element thinking_message (innerHTML e) = None.

(** Between two messages: no request is under way and the transcript
    shows no thinking message, nor anything that passes for it. *)
Definition idle {host : Host} (w : World) : Prop :=
  isLoading (appState w) = false
  /\ exists children,
       chat_messages (document w) = Some children
       /\ Forall inert children.

(** A text without the character that opens a tag: written into the
    page, it creates no element but the line breaks that [addMessage]
    puts in. *)
Definition LESS_THAN : code_unit := 60%N.

Definition plain (text : jsstring) : Prop := ~ In LESS_THAN text.

(** A submission all of whose texts are plain: the text typed and,
    whatever is sent, the answer or the message of the failure. *)
Definition is_plain (s : Submission) : Prop :=
  plain (typed s)
  /\ forall contents,
       match generateContent s contents with
       | Resolved (Str text) => plain text
       | Resolved Undefined => True
       | Rejected error => plain (error_message error)
       end.

(** The world in which [sendMessage] is suspended at [await]: the lines
    of [sendMessage] before the [try], for a message that went past the
    guard. *)
Definition requesting {host : Host} (w : World) : World :=
  let message := String_trim (chat_input (document w)) in
  exec (addMessage message human;;
        modify_document (set_chat_input []);;
        push {| role := user; content := message |};;
        setLoading true;;
        showThinkingMessage)%js w.

(** A submission that goes past the guard and whose request is answered,
    or fails, whatever is sent. *)
Definition is_answered (s : Submission) : Prop :=
  falsy (String_trim (typed s)) = false
  /\ forall contents, exists text, generateContent s contents = Resolved text.

Definition is_unanswered (s : Submission) : Prop :=
  falsy (String_trim (typed s)) = false
  /\ forall contents, exists error, generateContent s contents = Rejected error.

(** The number of positions at which a keyword occurs, overlaps
    included. *)
Fixpoint all_occurrences (keyword s : jsstring) : nat :=
  (if starts_with keyword s then 1 else 0)
  + match s with
    | [] => 0
    | _ :: s' => all_occurrences keyword s'
    end.

(** A keyword none of whose proper endings is one of its beginnings: two
    of its occurrences cannot overlap. *)
Definition border_free (keyword : jsstring) : bool :=
  forallb (fun j => negb (starts_with (skipn j keyword) keyword))
          (seq 1 (length keyword - 1)).

(** *** The timer

    [startTimer] runs its callback every second.  [Date.now()] is a
    whole number of milliseconds, and below 2^53 milliseconds the
    quotients and [Math.floor] of the callback are those of the
    integers. *)

Definition set_startTime (t : option Z) (a : AppState) : AppState :=
  {| startTime := t; sessionTime := sessionTime a;
     emergenceScore := emergenceScore a; isLoading := isLoading a;
     conversationHistory := conversationHistory a |}.

Definition set_sessionTime (t : Z) (a : AppState) : AppState :=
  {| startTime := startTime a; sessionTime := t;
     emergenceScore := emergenceScore a; isLoading := isLoading a;
     conversationHistory := conversationHistory a |}.

Fixpoint digits (d : Decimal.uint) : jsstring :=
  match d with
  | Decimal.Nil => []
  | Decimal.D0 d => 48%N :: digits d
  | Decimal.D1 d => 49%N :: digits d
  | Decimal.D2 d => 50%N :: digits d
  | Decimal.D3 d => 51%N :: digits d
  | Decimal.D4 d => 52%N :: digits d
  | Decimal.D5 d => 53%N :: digits d
  | Decimal.D6 d => 54%N :: digits d
  | Decimal.D7 d => 55%N :: digits d
  | Decimal.D8 d => 56%N :: digits d
  | Decimal.D9 d => 57%N :: digits d
  end.

(** [Number.prototype.toString] on a whole number (below 10^21 in
    absolute value, where the notation is positional). *)
Definition Number_toString (z : Z) : jsstring :=
  match Z.to_int z with
  | Decimal.Pos d => digits d
  | Decimal.Neg d => 45%N :: digits d
  end.

(** [String.prototype.padStart(targetLength, fillString)] *)
Definition String_padStart (s : jsstring) (targetLength : nat)
  (fillString : jsstring) : jsstring :=
  let fillLen := targetLength - length s in
  firstn fillLen (concat (repeat fillString fillLen)) ++ s.

(** [`${minutes}:${seconds.toString().padStart(2, '0')}`] *)
Definition timer_text (sessionTime : Z) : jsstring :=
  let minutes := (sessionTime / 60)%Z in
  let seconds := Z.rem sessionTime 60 in
  Number_toString minutes ++ js ":"
  ++ String_padStart (Number_toString seconds) 2 (js "0").

(** The callback of [startTimer] at the time [now]: it updates
    [appState.sessionTime] and yields the text it writes to the [timer]
    element, when the page has one; it does nothing while
    [appState.startTime] is [null] or [0]. *)
Definition tick (now : Z) : M (option jsstring) :=
  (w <- get;;
   match startTime (appState w) with
   | Some start =>
     if (start =? 0)%Z then ret None
     else
       let sessionTime := ((now - start) / 1000)%Z in
       modify_app (set_sessionTime sessionTime);;
       ret (Some (timer_text sessionTime))
   | None => ret None
   end)%js.

(** [init] at the time [now], as far as the state goes: the start time
    is recorded and the model opens the conversation. *)
Definition init {host : Host} (now : Z) : M unit :=
  (modify_app (set_startTime (Some now));;
   initiateConversation)%js.

(** The error of a response without text: [addMessage] fails at
    [content.replace] when the page has the container, and otherwise
    [analyzeMessage] fails at [message.toLowerCase]. *)
Definition textless_error {host : Host} (w : World) : Error :=
  TypeError match chat_messages (document w) with
            | Some _ => js "replace"
            | None => js "toLowerCase"
            end.

(** * Properties *)

(** ** Running the computations *)

Lemma exec_bind {A B} (m : M A) (k : A -> M B) (w : World) :
  exec (bind m k) w =
  match m w with
  | (Normal a, w') => exec (k a) w'
  | (Throw _, w') => w'
  end.
Proof.
  unfold exec, bind. destruct (m w) as [[a | e] w']; reflexivity.
Qed.

Lemma bind_get {B} (k : World -> M B) w : bind get k w = k w w.
Proof. reflexivity. Qed.

Lemma bind_ret {A B} (a : A) (k : A -> M B) w : bind (ret a) k w = k a w.
Proof. reflexivity. Qed.

Lemma bind_throw {A B} e (k : A -> M B) w :
  bind (throw e) k w = (Throw e, w).
Proof. reflexivity. Qed.

Lemma bind_modify_app {B} f (k : unit -> M B) w :
  bind (modify_app f) k w
  = k tt {| appState := f (appState w); document := document w |}.
Proof. reflexivity. Qed.

Lemma bind_modify_document {B} f (k : unit -> M B) w :
  bind (modify_document f) k w
  = k tt {| appState := appState w; document := f (document w) |}.
Proof. reflexivity. Qed.

(** One step of a computation whose first action is known. *)
Ltac run :=
  repeat (first [ rewrite bind_get | rewrite bind_ret | rewrite bind_throw
                | rewrite bind_modify_app | rewrite bind_modify_document ];
          cbv beta).

Lemma updateAnalytics_appState w :
  fst (updateAnalytics w) = Normal tt
  /\ appState (snd (updateAnalytics w)) = appState w
  /\ chat_messages (document (snd (updateAnalytics w))) = chat_messages (document w).
Proof.
  unfold updateAnalytics, bind, get.
  destruct (emergence_indicator (document w)); [|repeat split].
  destruct (40 <? emergenceScore (appState w))%Z; repeat split.
Qed.

(** What the three updates of the container leave alone. *)
Lemma shows_chat_messages e d :
  chat_messages (shows e d)
  = option_map (fun children => children ++ [e]) (chat_messages d).
Proof.
  unfold shows. destruct (chat_messages d) eqn:E; cbn [option_map]; auto.
Qed.

Lemma shows_chat_input e d : chat_input (shows e d) = chat_input d.
Proof. unfold shows. now destruct (chat_messages d). Qed.

Lemma shows_emergence_indicator e d :
  emergence_indicator (shows e d) = emergence_indicator d.
Proof. unfold shows. now destruct (chat_messages d). Qed.

(** ** Counting matches *)

Section Counting.
Context {host : Host}.

Lemma matches_length lowerMessage word :
  matches lowerMessage word
  = Z.of_nat (length (RegExp.match_indices (new_RegExp_gi word) lowerMessage)).
Proof.
  unfold matches, String_match.
  destruct (RegExp.match_indices (new_RegExp_gi word) lowerMessage); simpl.
  - reflexivity.
  - now rewrite length_map.
Qed.

Lemma matches_nonneg lowerMessage word : (0 <= matches lowerMessage word)%Z.
Proof. rewrite matches_length. lia. Qed.

Lemma total_matches_nonneg words lowerMessage :
  (0 <= total_matches words lowerMessage)%Z.
Proof.
  unfold total_matches. induction words as [|word words IH]; simpl.
  - lia.
  - pose proof (matches_nonneg lowerMessage word). lia.
Qed.

Lemma fold_left_weighted (f : jsstring -> Z) (weight : Z) words acc :
  fold_left (fun points word => points + f word * weight)%Z words acc
  = (acc + weight * fold_right Z.add 0 (map f words))%Z.
Proof.
  revert acc. induction words as [|word words IH]; intros acc; simpl.
  - lia.
  - rewrite IH. lia.
Qed.

Lemma fold_left_plain (f : jsstring -> Z) words acc :
  fold_left (fun count word => count + f word)%Z words acc
  = (acc + fold_right Z.add 0 (map f words))%Z.
Proof.
  revert acc. induction words as [|word words IH]; intros acc; simpl.
  - lia.
  - rewrite IH. lia.
Qed.

Lemma emergencePoints_total lowerMessage :
  emergencePoints lowerMessage
  = (15 * total_matches emergenceKeywords lowerMessage)%Z.
Proof.
  unfold emergencePoints, total_matches.
  now rewrite fold_left_weighted.
Qed.

Lemma surprises_total lowerMessage :
  surprises lowerMessage = total_matches surpriseWords lowerMessage.
Proof.
  unfold surprises, total_matches.
  now rewrite fold_left_plain.
Qed.

(** The score stored by [analyzeMessage], whatever the state before. *)
Lemma analyze_score text w :
  analyze text w
  = Z.min (15 * total_matches emergenceKeywords (toLowerCase text)
           + total_matches surpriseWords (toLowerCase text) * 10) 100.
Proof.
  rewrite <- emergencePoints_total, <- surprises_total.
  unfold analyze, analyzeMessage. rewrite exec_bind.
  unfold modify_app, exec.
  match goal with |- context [updateAnalytics ?w'] =>
    destruct (updateAnalytics_appState w') as (_ & -> & _) end.
  reflexivity.
Qed.

End Counting.

(** ** Matching with the [i] flag on a lower-cased text *)

Section Exact.
Context {host : Host}.

Lemma folded_tail c s : folded (c :: s) -> folded s.
Proof. intros H c' p Hc. apply H. now right. Qed.

Lemma folded_skipn k s : folded s -> folded (skipn k s).
Proof.
  revert s. induction k as [|k IH]; intros [|c s] H; simpl; auto.
  apply IH. eapply folded_tail; eauto.
Qed.

Lemma matches_at_starts_with src pat s :
  incl pat alphabet -> folded s ->
  RegExp.matches_at (new_RegExp_gi src) pat s = starts_with pat s.
Proof.
  revert s. induction pat as [|p pat IH]; intros [|c s] Hpat Hs; simpl; auto.
  rewrite IH.
  - f_equal. unfold RegExp.char_match. simpl.
    destruct (N.eqb_spec p c) as [->|Hne].
    + apply N.eqb_refl.
    + apply N.eqb_neq. intros Heq. apply Hne.
      apply Hs; [now left | apply Hpat; now left | exact Heq].
  - intros x Hx. apply Hpat. now right.
  - eapply folded_tail; eauto.
Qed.

(** Resuming the search [k] characters further is searching in what is
    left of the input. *)
Lemma exec_from_skip re k idx s :
  RegExp.source re <> [] ->
  RegExp.exec_from re k idx s = RegExp.exec_from re 0 (idx + k) (skipn k s).
Proof.
  intros Hsrc. revert k idx. induction s as [|c s IH]; intros k idx.
  - rewrite skipn_nil. simpl.
    destruct (RegExp.source re); [contradiction|]. now destruct k.
  - destruct k as [|k].
    + now rewrite Nat.add_0_r.
    + cbn [RegExp.exec_from skipn]. rewrite IH. f_equal. lia.
Qed.

Lemma match_count_occurrences keyword s :
  keyword <> [] -> incl keyword alphabet -> folded s ->
  forall idx,
    length (RegExp.exec_from (new_RegExp_gi keyword) 0 idx s)
    = occurrences keyword s.
Proof.
  intros Hne Hincl. funelim (occurrences keyword s); intros Hs idx.
  - simpl. now destruct keyword.
  - cbn [RegExp.exec_from].
    rewrite matches_at_starts_with by assumption.
    cbn [RegExp.source new_RegExp_gi].
    rewrite Heq. cbn [length]. f_equal.
    rewrite exec_from_skip by assumption.
    apply H; auto. apply folded_skipn. eapply folded_tail; eauto.
  - cbn [RegExp.exec_from].
    rewrite matches_at_starts_with by assumption.
    cbn [RegExp.source new_RegExp_gi].
    rewrite Heq. apply H; auto. eapply folded_tail; eauto.
Qed.

Lemma matches_occurrences keyword s :
  keyword <> [] -> incl keyword alphabet -> folded s ->
  matches s keyword = Z.of_nat (occurrences keyword s).
Proof.
  intros. rewrite matches_length. f_equal.
  now apply match_count_occurrences.
Qed.

Lemma total_matches_occurrences words s :
  Forall (fun word => word <> [] /\ incl word alphabet) words ->
  folded s ->
  total_matches words s = Z.of_nat (total_occurrences words s).
Proof.
  unfold total_matches, total_occurrences.
  induction 1 as [|word words [Hne Hincl] _ IH]; intros Hs; simpl.
  - reflexivity.
  - rewrite matches_occurrences, IH by assumption. lia.
Qed.

End Exact.

Lemma words_in_alphabet words :
  incl words (emergenceKeywords ++ surpriseWords) ->
  Forall (fun word => word <> [] /\ incl word alphabet) words.
Proof.
  intros Hincl. apply Forall_forall. intros word Hin. split.
  - apply Hincl in Hin. intros ->. revert Hin. vm_compute.
    intuition discriminate.
  - intros c Hc. unfold alphabet. apply in_concat.
    exists word. split; auto.
Qed.

(** ** The Latin-1 host satisfies what is assumed of a host *)

Module Latin1Facts.

Import Latin1.
Local Open Scope N_scope.

Lemma is_upper_spec c :
  is_upper c = true <-> (65 <= c <= 90 \/ (192 <= c <= 222 /\ c <> 215)).
Proof.
  unfold is_upper.
  rewrite orb_true_iff, !andb_true_iff, negb_true_iff, !N.leb_le, N.eqb_neq.
  tauto.
Qed.

Lemma is_lower_spec c :
  is_lower c = true <-> (97 <= c <= 122 \/ (224 <= c <= 254 /\ c <> 247)).
Proof.
  unfold is_lower.
  rewrite orb_true_iff, !andb_true_iff, negb_true_iff, !N.leb_le, N.eqb_neq.
  tauto.
Qed.

Lemma lower_not_upper c : is_upper (lower c) = false.
Proof.
  unfold lower. destruct (is_upper c) eqn:E; [|exact E].
  apply is_upper_spec in E.
  apply not_true_iff_false. rewrite is_upper_spec. lia.
Qed.

Lemma lower_idempotent c : lower (lower c) = lower c.
Proof. unfold lower at 1. now rewrite lower_not_upper. Qed.

Lemma toLowerCase_idempotent s :
  toLowerCase (toLowerCase s) = toLowerCase s.
Proof.
  cbn. rewrite map_map. apply map_ext, lower_idempotent.
Qed.

Lemma toLowerCase_latin1 s :
  Forall (fun c => c < 256) s -> toLowerCase s = map lower s.
Proof. reflexivity. Qed.

(** Folding is injective on characters that are not upper case. *)
Lemma upper_injective p c :
  lower p = p -> upper p = upper (lower c) -> p = lower c.
Proof.
  pose proof (lower_not_upper c) as Hq.
  revert Hq. generalize (lower c). clear c. intros q Hq Hp.
  assert (Hp' : is_upper p = false).
  { revert Hp. unfold lower. destruct (is_upper p); [lia | reflexivity]. }
  clear Hp. unfold upper.
  apply not_true_iff_false in Hq, Hp'. rewrite is_upper_spec in Hq, Hp'.
  destruct (is_lower p) eqn:Lp, (is_lower q) eqn:Lq;
    try apply is_lower_spec in Lp; try apply is_lower_spec in Lq; lia.
Qed.

Lemma alphabet_lower p : In p alphabet -> lower p = p.
Proof.
  intros Hin.
  assert (H : forallb (fun p => lower p =? p) alphabet = true)
    by (vm_compute; reflexivity).
  rewrite forallb_forall in H. apply N.eqb_eq. auto.
Qed.

Lemma Canonicalize_lowered s : folded (toLowerCase s).
Proof.
  intros c p Hc Hp Heq. cbn in Hc. apply in_map_iff in Hc.
  destruct Hc as (x & <- & _).
  apply upper_injective; [now apply alphabet_lower | exact Heq].
Qed.

End Latin1Facts.

(** A string of Latin-1, checked by computation. *)
Lemma latin1_check s :
  forallb (fun c => (c <? 256)%N) s = true -> Forall (fun c => (c < 256)%N) s.
Proof.
  intros H. apply Forall_forall. intros c Hc.
  rewrite forallb_forall in H. apply N.ltb_lt. auto.
Qed.

Lemma occurrences_absent keyword s :
  occurs_in keyword s = false -> occurrences keyword s = 0.
Proof.
  funelim (occurrences keyword s); intros Habs.
  - reflexivity.
  - cbn [occurs_in] in Habs. rewrite Heq in Habs. discriminate.
  - apply H. cbn [occurs_in] in Habs. rewrite Heq in Habs. exact Habs.
Qed.

(** ** Where the matches are *)

Lemma starts_with_app keyword s :
  starts_with keyword s = true -> exists rest, s = keyword ++ rest.
Proof.
  revert s. induction keyword as [|k keyword IH]; intros s H.
  - now exists s.
  - destruct s as [|c s]; [discriminate|].
    cbn in H. apply andb_true_iff in H. destruct H as [Hk H].
    apply N.eqb_eq in Hk. subst c.
    destruct (IH _ H) as [rest ->]. now exists rest.
Qed.

Lemma starts_with_prefix keyword more s :
  starts_with (keyword ++ more) s = true -> starts_with keyword s = true.
Proof.
  revert s. induction keyword as [|k keyword IH]; intros s H; [reflexivity|].
  destruct s as [|c s]; [discriminate|].
  cbn in *. apply andb_true_iff in H. destruct H as [-> H]. now apply IH.
Qed.

(** A keyword whose first character does not come back in it cannot
    start again inside one of its occurrences. *)
Lemma no_overlap h t s j :
  ~ In h t -> starts_with (h :: t) s = true ->
  0 < j < length (h :: t) -> starts_with (h :: t) (skipn j s) = false.
Proof.
  intros Hh Hs [Hj Hlen]. apply starts_with_app in Hs. destruct Hs as [rest ->].
  destruct j as [|j]; [lia|]. cbn [app skipn]. cbn [length] in Hlen.
  rewrite skipn_app.
  destruct (skipn j t) as [|x t'] eqn:E.
  - apply (f_equal (@length _)) in E. rewrite length_skipn in E.
    cbn in E. lia.
  - cbn. assert (Hx : In x t).
    { rewrite <- (firstn_skipn j t), E. apply in_or_app. right. now left. }
    destruct (N.eqb_spec h x) as [->|]; [contradiction|reflexivity].
Qed.

Section Positions.
Context {host : Host}.

Lemma exec_from_sound re k idx s i :
  RegExp.source re <> [] ->
  In i (RegExp.exec_from re k idx s) ->
  exists j, i = idx + j /\ k <= j < length s
            /\ RegExp.matches_at re (RegExp.source re) (skipn j s) = true.
Proof.
  intros Hsrc. revert k idx. induction s as [|c s IH]; intros k idx Hin.
  - cbn in Hin. destruct k, (RegExp.source re); try contradiction.
  - destruct k as [|k]; cbn [RegExp.exec_from] in Hin.
    + destruct (RegExp.matches_at re (RegExp.source re) (c :: s)) eqn:E.
      * destruct Hin as [<- | Hin].
        -- exists 0. cbn [skipn length]. repeat split; auto; lia.
        -- apply IH in Hin. destruct Hin as (j & -> & Hj & Hm).
           exists (S j). cbn [skipn length]. repeat split; auto; lia.
      * apply IH in Hin. destruct Hin as (j & -> & Hj & Hm).
        exists (S j). cbn [skipn length]. repeat split; auto; lia.
    + apply IH in Hin. destruct Hin as (j & -> & Hj & Hm).
      exists (S j). cbn [skipn length]. repeat split; auto; lia.
Qed.

Lemma exec_from_ge re k idx s i :
  In i (RegExp.exec_from re k idx s) -> idx <= i.
Proof.
  revert k idx. induction s as [|c s IH]; intros k idx Hin.
  - cbn in Hin. destruct k, (RegExp.source re); try contradiction.
    destruct Hin as [<- | []]. lia.
  - destruct k as [|k]; cbn [RegExp.exec_from] in Hin.
    + destruct (RegExp.matches_at re (RegExp.source re) (c :: s)).
      * destruct Hin as [<- | Hin]; [lia|]. apply IH in Hin. lia.
      * apply IH in Hin. lia.
    + apply IH in Hin. lia.
Qed.

(** No position is reported twice. *)
Lemma exec_from_NoDup re k idx s : NoDup (RegExp.exec_from re k idx s).
Proof.
  revert k idx. induction s as [|c s IH]; intros k idx.
  - cbn. destruct k, (RegExp.source re); repeat constructor. intros [].
  - destruct k as [|k]; cbn [RegExp.exec_from]; auto.
    destruct (RegExp.matches_at re (RegExp.source re) (c :: s)); auto.
    constructor; auto. intros Hin. apply exec_from_ge in Hin. lia.
Qed.

(** Every occurrence of a keyword that cannot overlap itself is found. *)
Lemma exec_from_complete h t s :
  ~ In h t -> incl (h :: t) alphabet -> folded s ->
  forall k idx j,
    k <= j < length s ->
    starts_with (h :: t) (skipn j s) = true ->
    In (idx + j) (RegExp.exec_from (new_RegExp_gi (h :: t)) k idx s).
Proof.
  intros Hh Hincl. induction s as [|c s IH]; intros Hs k idx j Hj Hm.
  - cbn in Hj. lia.
  - assert (Hs' : folded s) by (eapply folded_tail; eauto).
    destruct k as [|k]; cbn [RegExp.exec_from].
    + rewrite matches_at_starts_with by assumption.
      cbn [RegExp.source new_RegExp_gi].
      destruct (starts_with (h :: t) (c :: s)) eqn:E.
      * destruct j as [|j]; [left; lia|]. right.
        replace (idx + S j) with (S idx + j) by lia.
        cbn [skipn] in Hm. cbn [length] in Hj.
        apply IH; auto.
        split; [|lia].
        destruct (Nat.le_gt_cases (length (h :: t)) (S j)) as [Hle|Hlt];
          [cbn [length] in *; lia|].
        assert (Hno : starts_with (h :: t) (skipn (S j) (c :: s)) = false)
          by (apply no_overlap; auto; lia).
        cbn [skipn] in Hno. congruence.
      * destruct j as [|j]; [cbn [skipn] in Hm; congruence|].
        replace (idx + S j) with (S idx + j) by lia.
        cbn [skipn] in Hm. cbn [length] in Hj.
        apply IH; auto. lia.
    + destruct j as [|j]; [lia|].
      replace (idx + S j) with (S idx + j) by lia.
      cbn [skipn] in Hm. cbn [length] in Hj.
      apply IH; auto. lia.
Qed.

End Positions.

(** The keywords and the markers hold no character with a meaning in a
    pattern: the regular expressions built from them match them
    character by character. *)
Lemma keywords_are_literal :
  forallb RegExp.literal (emergenceKeywords ++ surpriseWords) = true.
Proof. vm_compute. reflexivity. Qed.

(** ** The emergence score *)

Section Score.
Context {host : Host}.

(** What is assumed of the host.  Lower-casing twice is lower-casing
    once; a string of Latin-1 is lower-cased character by character with
    the Latin-1 table; and in a lower-cased string the matcher's folding
    confuses no character with a different character of a keyword (the
    upper-case forms are gone, and [Canonicalize] never maps a character
    outside ASCII to an ASCII one). *)
Hypothesis toLowerCase_idempotent :
  forall s, toLowerCase (toLowerCase s) = toLowerCase s.
Hypothesis toLowerCase_latin1 :
  forall s, Forall (fun c => (c < 256)%N) s -> toLowerCase s = map Latin1.lower s.
Hypothesis Canonicalize_lowered :
  forall s, folded (toLowerCase s).

Lemma total_matches_lowered words text :
  incl words (emergenceKeywords ++ surpriseWords) ->
  total_matches words (toLowerCase text)
  = Z.of_nat (total_occurrences words (toLowerCase text)).
Proof.
  intros Hincl. apply total_matches_occurrences.
  - now apply words_in_alphabet.
  - apply Canonicalize_lowered.
Qed.

Lemma analyze_occurrences text w :
  analyze text w
  = Z.min (15 * Z.of_nat (total_occurrences emergenceKeywords (toLowerCase text))
           + Z.of_nat (total_occurrences surpriseWords (toLowerCase text)) * 10)
          100.
Proof.
  rewrite analyze_score.
  rewrite !total_matches_lowered; auto using incl_appl, incl_appr, incl_refl.
Qed.

(** The lower-case form of a Latin-1 string that holds no upper-case
    letter is the string itself. *)
Lemma toLowerCase_fixed s :
  forallb (fun c => (c <? 256)%N && negb (Latin1.is_upper c)) s = true ->
  toLowerCase s = s.
Proof.
  intros H. rewrite forallb_forall in H.
  rewrite toLowerCase_latin1.
  - rewrite <- (map_id s) at 2. apply map_ext_in. intros c Hc.
    apply H in Hc. apply andb_true_iff in Hc. destruct Hc as [_ Hc].
    unfold Latin1.lower. now destruct (Latin1.is_upper c).
  - apply Forall_forall. intros c Hc. apply H in Hc.
    apply andb_true_iff in Hc. now apply N.ltb_lt.
Qed.

(** C1: for every text, the score [analyzeMessage] stores is
    [min(emergencePoints + surprises * 10, 100)], where [emergencePoints]
    is 15 times the number of occurrences of the emergence keywords as
    substrings of the lower-cased text, counted per keyword leftmost
    first and without overlap and summed over the keywords, and
    [surprises] is the number of occurrences of the five surprise
    markers; the score lies between 0 and 100. *)
Theorem analyze_is_clamped_weighted_count (text : jsstring) (w : World) :
  let lowered := toLowerCase text in
  emergencePoints lowered
  = (15 * Z.of_nat (total_occurrences emergenceKeywords lowered))%Z
  /\ surprises lowered = Z.of_nat (total_occurrences surpriseWords lowered)
  /\ analyze text w
     = Z.min (emergencePoints lowered + surprises lowered * 10) 100
  /\ analyze text w = spec_analyze text
  /\ (0 <= analyze text w <= 100)%Z.
Proof.
  intros lowered.
  assert (He : emergencePoints lowered
               = (15 * Z.of_nat (total_occurrences emergenceKeywords lowered))%Z).
  { rewrite emergencePoints_total. unfold lowered.
    rewrite total_matches_lowered; auto using incl_appl, incl_refl. }
  assert (Hs : surprises lowered
               = Z.of_nat (total_occurrences surpriseWords lowered)).
  { rewrite surprises_total. unfold lowered.
    rewrite total_matches_lowered; auto using incl_appr, incl_refl. }
  split; [exact He|]. split; [exact Hs|].
  rewrite analyze_occurrences. unfold spec_analyze. fold lowered.
  rewrite He, Hs. repeat split; lia.
Qed.

(** C7: the score does not decrease when the numbers of keyword and of
    marker occurrences do not decrease; a text with enough occurrences
    scores exactly 100, and such a text exists; no text scores more
    than 100. *)
Theorem analyze_monotone_and_saturating :
  (forall t1 t2 w1 w2,
      total_occurrences emergenceKeywords (toLowerCase t1)
      <= total_occurrences emergenceKeywords (toLowerCase t2) ->
      total_occurrences surpriseWords (toLowerCase t1)
      <= total_occurrences surpriseWords (toLowerCase t2) ->
      (analyze t1 w1 <= analyze t2 w2)%Z)
  /\ (forall text w,
         100 <= 15 * total_occurrences emergenceKeywords (toLowerCase text)
                + 10 * total_occurrences surpriseWords (toLowerCase text) ->
         analyze text w = 100%Z)
  /\ (forall w, analyze (js "neu neu neu neu neu neu neu") w = 100%Z)
  /\ (forall text w, (analyze text w <= 100)%Z).
Proof.
  repeat split.
  - intros t1 t2 w1 w2 Hk Hs. rewrite !analyze_occurrences. lia.
  - intros text w H. rewrite analyze_occurrences. lia.
  - intros w. rewrite analyze_occurrences.
    rewrite toLowerCase_fixed by (vm_compute; reflexivity).
    vm_compute. reflexivity.
  - intros text w. rewrite analyze_occurrences. lia.
Qed.

(** C8: the score of a text is the score of its lower-case form; in
    particular the scores of EMERGENT and of emergent are equal. *)
Theorem analyze_case_insensitive :
  (forall text w, analyze text w = analyze (toLowerCase text) w)
  /\ (forall w, analyze (js "EMERGENT") w = analyze (js "emergent") w).
Proof.
  assert (H : forall text w, analyze text w = analyze (toLowerCase text) w).
  { intros text w. rewrite !analyze_score.
    now rewrite toLowerCase_idempotent. }
  split; [exact H|].
  intros w. rewrite (H (js "EMERGENT")), (H (js "emergent")).
  rewrite !toLowerCase_latin1 by (apply latin1_check; vm_compute; reflexivity).
  reflexivity.
Qed.

(** C9: the empty text scores 0, and so does every text whose
    lower-case form holds no emergence keyword and no surprise marker;
    the score stored before is overwritten with 0. *)
Theorem analyze_without_keywords_is_zero :
  (forall w, analyze [] w = 0%Z)
  /\ (forall text w,
         (forall word, In word (emergenceKeywords ++ surpriseWords) ->
                       occurs_in word (toLowerCase text) = false) ->
         emergenceScore (appState (exec (analyzeMessage text) w)) = 0%Z).
Proof.
  assert (H : forall text w,
             (forall word, In word (emergenceKeywords ++ surpriseWords) ->
                           occurs_in word (toLowerCase text) = false) ->
             analyze text w = 0%Z).
  { intros text w Habs. rewrite analyze_occurrences.
    assert (Hz : forall words, incl words (emergenceKeywords ++ surpriseWords) ->
                   total_occurrences words (toLowerCase text) = 0).
    { unfold total_occurrences.
      induction words as [|word words IH]; intros Hincl; simpl; [reflexivity|].
      rewrite occurrences_absent, IH; auto.
      - intros x Hx. apply Hincl. now right.
      - apply Habs, Hincl. now left. }
    rewrite !Hz; auto using incl_appl, incl_appr, incl_refl. }
  split; [|exact H].
  intros w. apply H. intros word Hin.
  rewrite toLowerCase_fixed by reflexivity.
  revert word Hin. apply Forall_forall.
  repeat constructor.
Qed.

(** The marker [überrasch] is the beginning of the keyword
    [überraschend], and its first character does not come back in it. *)
Lemma surprise_positions text i :
  In i (RegExp.match_indices (new_RegExp_gi (js "überraschend")) (toLowerCase text)) ->
  In i (RegExp.match_indices (new_RegExp_gi (js "überrasch")) (toLowerCase text)).
Proof.
  unfold RegExp.match_indices. intros Hin.
  assert (Hwords : Forall (fun word => word <> [] /\ incl word alphabet)
                     [js "überraschend"; js "überrasch"]).
  { apply words_in_alphabet. intros x [<- | [<- | []]]; vm_compute; tauto. }
  inversion Hwords as [|? ? [Hne Hlong] Hrest]; subst.
  inversion Hrest as [|? ? [_ Hshort] _]; subst.
  apply exec_from_sound in Hin; [|exact Hne].
  destruct Hin as (j & -> & Hj & Hm). cbn [RegExp.source new_RegExp_gi] in Hm.
  rewrite matches_at_starts_with in Hm;
    [|assumption|apply folded_skipn, Canonicalize_lowered].
  change (js "überraschend") with (js "überrasch" ++ js "end") in Hm.
  apply starts_with_prefix in Hm.
  change (js "überrasch") with (252%N :: js "berrasch") in *.
  apply exec_from_complete; auto.
  vm_compute. intuition discriminate.
Qed.

Lemma surprise_count text :
  (matches (toLowerCase text) (js "überraschend")
   <= matches (toLowerCase text) (js "überrasch"))%Z.
Proof.
  rewrite !matches_length. apply inj_le.
  apply NoDup_incl_length.
  - apply exec_from_NoDup.
  - intros i. apply surprise_positions.
Qed.

(** C10: the two lists overlap.  Every match of the keyword
    [überraschend] is at the same place a match of the surprise marker
    [überrasch], so that each occurrence is worth 15 + 10 points, and the
    text [überraschend] scores 25. *)
Theorem surprising_is_counted_twice :
  In (js "überraschend") emergenceKeywords
  /\ In (js "überrasch") surpriseWords
  /\ (forall text i,
         In i (RegExp.match_indices (new_RegExp_gi (js "überraschend"))
                                    (toLowerCase text)) ->
         In i (RegExp.match_indices (new_RegExp_gi (js "überrasch"))
                                    (toLowerCase text)))
  /\ (forall text w,
         (Z.min (25 * matches (toLowerCase text) (js "überraschend")) 100
          <= analyze text w)%Z)
  /\ (forall w, analyze (js "überraschend") w = 25%Z).
Proof.
  split; [now left|]. split; [now left|].
  split; [exact surprise_positions|]. split.
  - intros text w. rewrite analyze_score.
    pose proof (surprise_count text) as Hle.
    change emergenceKeywords
      with (js "überraschend" :: tl emergenceKeywords).
    change surpriseWords with (js "überrasch" :: tl surpriseWords).
    unfold total_matches. cbn [map fold_right].
    fold (total_matches (tl emergenceKeywords) (toLowerCase text)).
    fold (total_matches (tl surpriseWords) (toLowerCase text)).
    pose proof (total_matches_nonneg (tl emergenceKeywords) (toLowerCase text)).
    pose proof (total_matches_nonneg (tl surpriseWords) (toLowerCase text)).
    lia.
  - intros w. rewrite analyze_occurrences.
    rewrite toLowerCase_fixed by (vm_compute; reflexivity).
    vm_compute. reflexivity.
Qed.

End Score.


(** ** The trimming rule *)

Lemma Array_slice_last {A} (a : list A) :
  18 <= length a -> Array_slice a (-18) = skipn (length a - 18) a.
Proof.
  intros H. unfold Array_slice.
  change (-18 <? 0)%Z with true. cbv iota. f_equal. lia.
Qed.

Lemma trim_triggered history :
  20 < length history ->
  trim history = skipn (length history - 18) history
  /\ length (trim history) = 18.
Proof.
  intros H. unfold trim.
  destruct (Nat.ltb_spec 20 (length history)); [|lia].
  rewrite Array_slice_last by lia. split; [reflexivity|].
  rewrite length_skipn. lia.
Qed.

Lemma trim_untouched history :
  length history <= 20 -> trim history = history.
Proof.
  intros H. unfold trim.
  destruct (Nat.ltb_spec 20 (length history)); [lia|reflexivity].
Qed.


(** ** One request to the model *)

Lemma try_catch_normal {A} (body : M A) handler w a w' :
  body w = (Normal a, w') -> try_catch body handler w = (Normal a, w').
Proof. unfold try_catch. now intros ->. Qed.

Lemma try_catch_thrown {A} (body : M A) handler w e w' :
  body w = (Throw e, w') -> try_catch body handler w = handler e w'.
Proof. unfold try_catch. now intros ->. Qed.

Lemma bind_normal {A B} (m : M A) (k : A -> M B) w a w' :
  m w = (Normal a, w') -> bind m k w = k a w'.
Proof. unfold bind. now intros ->. Qed.

Lemma bind_thrown {A B} (m : M A) (k : A -> M B) w e w' :
  m w = (Throw e, w') -> bind m k w = (Throw e, w').
Proof. unfold bind. now intros ->. Qed.

Section Conversation.
Context {host : Host}.

Lemma addMessage_Str (content : jsstring) type w :
  addMessage content type w
  = (Normal tt,
     {| appState := appState w;
        document := shows (messageDiv content type) (document w) |}).
Proof.
  destruct w as [a d]. unfold addMessage. run. cbn [document appState].
  unfold shows, modify_document.
  destruct (chat_messages d) eqn:E; cbn [document appState]; rewrite ?E;
    reflexivity.
Qed.

Lemma bind_addMessage {B} (content : jsstring) type (k : unit -> M B) w :
  bind (addMessage content type) k w
  = k tt {| appState := appState w;
            document := shows (messageDiv content type) (document w) |}.
Proof. apply bind_normal, addMessage_Str. Qed.

Lemma addMessage_Undefined type w :
  addMessage Undefined type w
  = match chat_messages (document w) with
    | Some _ => (Throw (TypeError (js "replace")), w)
    | None => (Normal tt, w)
    end.
Proof.
  unfold addMessage. run. destruct (chat_messages (document w)); reflexivity.
Qed.

Ltac step := run; repeat (rewrite bind_addMessage; cbv beta; run).

Lemma analyzeMessage_world (text : jsstring) w :
  exists w',
    analyzeMessage text w = (Normal tt, w')
    /\ appState w' = set_emergenceScore (analyze text w) (appState w)
    /\ chat_messages (document w') = chat_messages (document w)
    /\ chat_input (document w') = chat_input (document w)
    /\ emergence_indicator (document w')
       = option_map
           (fun indicator =>
              if (40 <? analyze text w)%Z
              then {| active := true; removals := S (removals indicator) |}
              else indicator)
           (emergence_indicator (document w)).
Proof.
  assert (Hs : analyze text w
               = Z.min (emergencePoints (toLowerCase text)
                        + surprises (toLowerCase text) * 10) 100).
  { now rewrite analyze_score, emergencePoints_total, surprises_total. }
  rewrite Hs. unfold analyzeMessage. run. unfold updateAnalytics. run.
  cbn [document appState emergenceScore set_emergenceScore].
  destruct (emergence_indicator (document w)) as [indicator|] eqn:E.
  - destruct (40 <? _)%Z eqn:E40.
    + unfold modify_document. eexists. split; [reflexivity|].
      cbn [appState document chat_messages chat_input emergence_indicator
           set_emergence_indicator option_map].
      repeat split.
    + unfold ret. eexists. split; [reflexivity|].
      cbn [appState document option_map]. rewrite E. repeat split.
  - unfold ret. eexists. split; [reflexivity|].
    cbn [appState document option_map]. rewrite E. repeat split.
Qed.

Lemma analyze_any_world text w1 w2 : analyze text w1 = analyze text w2.
Proof. now rewrite !analyze_score. Qed.

(** The three ways [getAIResponse] can end. *)
Lemma getAIResponse_rejected generateContent error w :
  generateContent (toModelFormat (History w)) = Rejected error ->
  getAIResponse generateContent w
  = (Throw error,
     {| appState := appState w;
        document := shows (messageDiv (api_error_text error) system)
                          (document w) |}).
Proof.
  intros H. unfold getAIResponse. run. unfold try_catch.
  unfold toModelFormat, History in H. rewrite H. unfold await. step.
  reflexivity.
Qed.

Lemma getAIResponse_resolved generateContent (text : jsstring) w :
  generateContent (toModelFormat (History w)) = Resolved text ->
  exists w',
    getAIResponse generateContent w = (Normal tt, w')
    /\ appState w'
       = set_emergenceScore (analyze text w)
           (set_conversationHistory
              (trim (History w ++ [{| role := assistant; content := text |}]))
              (appState w))
    /\ chat_messages (document w') = shown text ai (chat_messages (document w))
    /\ chat_input (document w') = chat_input (document w).
Proof.
  intros H. unfold getAIResponse. run. unfold try_catch.
  unfold toModelFormat, History in H. rewrite H. unfold await. run.
  unfold push. step.
  match goal with |- context [analyzeMessage (Str text) ?w1] =>
    destruct (analyzeMessage_world text w1) as (w' & E & Ha & Hc & Hi & _);
    rewrite (analyze_any_world text w1 w) in Ha
  end.
  rewrite E. exists w'. split; [reflexivity|].
  rewrite Ha, Hc, Hi. unfold History, shown.
  cbn [appState document conversationHistory set_conversationHistory].
  rewrite shows_chat_messages, shows_chat_input. repeat split.
Qed.

Lemma getAIResponse_textless generateContent w :
  generateContent (toModelFormat (History w)) = Resolved Undefined ->
  getAIResponse generateContent w
  = (Throw (textless_error w),
     {| appState :=
          set_conversationHistory
            (trim (History w ++ [{| role := assistant; content := Undefined |}]))
            (appState w);
        document := shows (messageDiv (api_error_text (textless_error w)) system)
                          (document w) |}).
Proof.
  intros H. unfold getAIResponse. run. unfold try_catch.
  unfold toModelFormat, History in H. rewrite H. unfold await. run.
  unfold push. run. unfold textless_error, History.
  cbn [appState document conversationHistory set_conversationHistory].
  unfold bind at 1. rewrite addMessage_Undefined. cbn [document].
  destruct (chat_messages (document w)) eqn:Ec.
  - step. reflexivity.
  - unfold analyzeMessage. unfold throw at 1. cbv iota beta. step. reflexivity.
Qed.

(** ** One message of the user *)

(** While a request is under way, and for a message that is empty once
    trimmed, [sendMessage] changes nothing. *)
Lemma sendMessage_guarded generateContent w :
  falsy (String_trim (chat_input (document w))) = true
  \/ isLoading (appState w) = true ->
  sendMessage generateContent w = (Normal tt, w).
Proof.
  intros H. unfold sendMessage. run.
  destruct H as [-> | ->]; [|rewrite orb_true_r]; reflexivity.
Qed.

Lemma requesting_state w :
  appState (requesting w)
  = set_isLoading true
      (set_conversationHistory (History w ++ [userTurn w]) (appState w))
  /\ chat_input (document (requesting w)) = []
  /\ chat_messages (document (requesting w))
     = option_map
         (fun children =>
            children ++ [messageDiv (String_trim (chat_input (document w))) human;
                         thinkingDiv])
         (chat_messages (document w))
  /\ emergence_indicator (document (requesting w))
     = emergence_indicator (document w).
Proof.
  unfold requesting, exec. unfold push, setLoading, showThinkingMessage.
  step. unfold modify_document. cbn [snd appState document].
  split; [reflexivity|].
  fold (shows thinkingDiv
          (set_chat_input []
             (shows (messageDiv (String_trim (chat_input (document w))) human)
                    (document w)))).
  rewrite shows_chat_input, shows_chat_messages, shows_emergence_indicator.
  cbn [chat_input chat_messages emergence_indicator set_chat_input].
  rewrite shows_chat_messages, shows_emergence_indicator.
  repeat split.
  destruct (chat_messages (document w)); cbn [option_map]; [|reflexivity].
  now rewrite <- app_assoc.
Qed.

Lemma requesting_History w : History (requesting w) = History w ++ [userTurn w].
Proof.
  destruct (requesting_state w) as (Ha & _). unfold History. now rewrite Ha.
Qed.

Lemma sendMessage_at_request generateContent w :
  passes_guard w ->
  sendMessage generateContent w
  = bind (try_catch (getAIResponse generateContent)
                    (fun error => addMessage (retry_error_text error) system))
         (fun _ => bind (setLoading false) (fun _ => hideThinkingMessage))
         (requesting w).
Proof.
  intros [Hmsg Hload]. unfold sendMessage. run. rewrite Hmsg, Hload.
  cbn [orb]. unfold requesting, exec.
  unfold push, setLoading at 1 3, showThinkingMessage.
  step. unfold modify_document. cbn [snd]. reflexivity.
Qed.

(** The last two lines of [sendMessage]. *)
Lemma finish_send w2 :
  exists w',
    bind (setLoading false) (fun _ => hideThinkingMessage) w2 = (Normal tt, w')
    /\ appState w' = set_isLoading false (appState w2)
    /\ chat_messages (document w')
       = option_map (remove_by_id thinking_message) (chat_messages (document w2))
    /\ chat_input (document w') = chat_input (document w2)
    /\ emergence_indicator (document w') = emergence_indicator (document w2).
Proof.
  unfold setLoading, hideThinkingMessage. run. unfold modify_document.
  eexists. split; [reflexivity|]. cbn [appState document].
  split; [reflexivity|].
  destruct (chat_messages (document w2)) eqn:E;
    cbn [chat_messages chat_input emergence_indicator set_chat_messages
         option_map]; rewrite ?E; repeat split.
Qed.

(** What is left to do when [getAIResponse] has thrown. *)
Lemma after_failure generateContent error w w1 :
  passes_guard w ->
  getAIResponse generateContent (requesting w) = (Throw error, w1) ->
  exists w',
    sendMessage generateContent w = (Normal tt, w')
    /\ appState w' = set_isLoading false (appState w1)
    /\ chat_messages (document w')
       = option_map (remove_by_id thinking_message)
           (shown (retry_error_text error) system (chat_messages (document w1)))
    /\ chat_input (document w') = chat_input (document w1)
    /\ emergence_indicator (document w') = emergence_indicator (document w1).
Proof.
  intros Hguard E.
  destruct (finish_send
              {| appState := appState w1;
                 document := shows (messageDiv (retry_error_text error) system)
                                   (document w1) |})
    as (w3 & E3 & Ha3 & Hc3 & Hi3 & He3).
  exists w3. split.
  - rewrite sendMessage_at_request by assumption.
    erewrite bind_normal;
      [exact E3
      |erewrite try_catch_thrown by exact E; apply addMessage_Str].
  - cbn [appState document] in Ha3, Hc3, Hi3, He3.
    rewrite shows_chat_messages in Hc3. rewrite shows_chat_input in Hi3.
    rewrite shows_emergence_indicator in He3.
    repeat split; assumption.
Qed.

Lemma sendMessage_rejected generateContent error w :
  passes_guard w ->
  generateContent (toModelFormat (History w ++ [userTurn w])) = Rejected error ->
  exists w',
    sendMessage generateContent w = (Normal tt, w')
    /\ appState w'
       = set_isLoading false
           (set_conversationHistory (History w ++ [userTurn w]) (appState w))
    /\ chat_messages (document w')
       = option_map
           (fun children =>
              remove_by_id thinking_message
                (children
                   ++ [messageDiv (String_trim (chat_input (document w))) human;
                       thinkingDiv;
                       messageDiv (api_error_text error) system;
                       messageDiv (retry_error_text error) system]))
           (chat_messages (document w))
    /\ chat_input (document w') = []
    /\ emergence_indicator (document w') = emergence_indicator (document w).
Proof.
  intros Hguard Hgen. rewrite <- requesting_History in Hgen.
  apply getAIResponse_rejected in Hgen.
  destruct (@after_failure _ _ _ _ Hguard Hgen) as (w' & E & Ha & Hc & Hi & He).
  destruct (requesting_state w) as (Hra & Hri & Hrc & Hre).
  exists w'. split; [exact E|].
  cbn [appState document] in Ha, Hc, Hi, He.
  rewrite shows_chat_messages in Hc. rewrite shows_chat_input in Hi.
  rewrite shows_emergence_indicator in He.
  rewrite Ha, Hc, Hi, He, Hra, Hri, Hrc, Hre. unfold shown.
  split; [reflexivity|]. split; [|split; reflexivity].
  destruct (chat_messages (document w)); cbn [option_map]; [|reflexivity].
  now rewrite <- !app_assoc.
Qed.

Lemma sendMessage_textless generateContent w :
  passes_guard w ->
  generateContent (toModelFormat (History w ++ [userTurn w])) = Resolved Undefined ->
  let error := TypeError (js "replace") in
  exists w',
    sendMessage generateContent w = (Normal tt, w')
    /\ appState w'
       = set_isLoading false
           (set_conversationHistory
              (trim (History w ++ [userTurn w]
                     ++ [{| role := assistant; content := Undefined |}]))
              (appState w))
    /\ chat_messages (document w')
       = option_map
           (fun children =>
              remove_by_id thinking_message
                (children
                   ++ [messageDiv (String_trim (chat_input (document w))) human;
                       thinkingDiv;
                       messageDiv (api_error_text error) system;
                       messageDiv (retry_error_text error) system]))
           (chat_messages (document w))
    /\ chat_input (document w') = []
    /\ emergence_indicator (document w') = emergence_indicator (document w).
Proof.
  intros Hguard Hgen error. rewrite <- requesting_History in Hgen.
  apply getAIResponse_textless in Hgen.
  destruct (@after_failure _ _ _ _ Hguard Hgen) as (w' & E & Ha & Hc & Hi & He).
  destruct (requesting_state w) as (Hra & Hri & Hrc & Hre).
  exists w'. split; [exact E|].
  cbn [appState document] in Ha, Hc, Hi, He.
  rewrite shows_chat_messages in Hc. rewrite shows_chat_input in Hi.
  rewrite shows_emergence_indicator in He.
  rewrite Ha, Hc, Hi, He, Hri, Hrc, Hre, requesting_History, Hra.
  unfold shown, textless_error. rewrite Hrc.
  split; [now rewrite <- app_assoc|]. split; [|split; reflexivity].
  destruct (chat_messages (document w)); cbn [option_map]; [|reflexivity].
  now rewrite <- !app_assoc.
Qed.

Lemma sendMessage_resolved generateContent (text : jsstring) w :
  passes_guard w ->
  generateContent (toModelFormat (History w ++ [userTurn w])) = Resolved text ->
  exists w',
    sendMessage generateContent w = (Normal tt, w')
    /\ appState w'
       = set_isLoading false
           (set_emergenceScore (analyze text w)
              (set_conversationHistory
                 (trim (History w ++ [userTurn w]
                        ++ [{| role := assistant; content := text |}]))
                 (appState w)))
    /\ chat_messages (document w')
       = option_map
           (fun children =>
              remove_by_id thinking_message
                (children
                   ++ [messageDiv (String_trim (chat_input (document w))) human;
                       thinkingDiv; messageDiv text ai]))
           (chat_messages (document w))
    /\ chat_input (document w') = [].
Proof.
  intros Hguard Hgen. rewrite <- requesting_History in Hgen.
  apply getAIResponse_resolved in Hgen.
  destruct Hgen as (w2 & E2 & Ha2 & Hc2 & Hi2).
  destruct (finish_send w2) as (w3 & E3 & Ha3 & Hc3 & Hi3 & _).
  destruct (requesting_state w) as (Hra & Hri & Hrc & _).
  exists w3. split.
  - rewrite sendMessage_at_request by assumption.
    erewrite bind_normal by (apply try_catch_normal; exact E2). exact E3.
  - rewrite Ha3, Hc3, Hi3, Ha2, Hc2, Hi2, Hri, Hrc, requesting_History, Hra.
    rewrite (analyze_any_world text (requesting w) w). unfold shown.
    split; [now rewrite <- app_assoc|]. split; [|reflexivity].
    destruct (chat_messages (document w)); cbn [option_map]; [|reflexivity].
    now rewrite <- !app_assoc.
Qed.

Lemma has_id_thinking e :
  has_id thinking_message e = true -> className e = thinking.
Proof.
  unfold has_id, id. destruct (className e); [|reflexivity].
  destruct (list_eq_dec N.eq_dec [] thinking_message); discriminate.
Qed.

(** Removing the thinking message, or an element inside a message,
    leaves the entries of each class what they were. *)
Lemma remove_by_id_system children :
  length (filter is_system_entry (remove_by_id thinking_message children))
  = length (filter is_system_entry children).
Proof.
  induction children as [|e children IH]; [reflexivity|].
  cbn [remove_by_id]. destruct (has_id thinking_message e) eqn:Hid.
  - apply has_id_thinking in Hid. cbn [filter].
    unfold is_system_entry at 2. now rewrite Hid.
  - destruct (without_element thinking_message (innerHTML e)) as [html|].
    + cbn [filter]. unfold is_system_entry. cbn [className].
      now destruct (className e) as [type|]; [destruct type|].
    + cbn [filter]. destruct (is_system_entry e); cbn [length]; now rewrite IH.
Qed.


Lemma sendMessage_History generateContent w :
  passes_guard w ->
  fst (sendMessage generateContent w) = Normal tt
  /\ isLoading (appState (exec (sendMessage generateContent) w)) = false
  /\ History (exec (sendMessage generateContent) w)
     = match generateContent (toModelFormat (History w ++ [userTurn w])) with
       | Resolved text =>
         trim (History w ++ [userTurn w]
               ++ [{| role := assistant; content := text |}])
       | Rejected _ => History w ++ [userTurn w]
       end.
Proof.
  intros Hguard. unfold exec.
  destruct (generateContent (toModelFormat (History w ++ [userTurn w])))
    as [[text|]|error] eqn:H.
  - destruct (sendMessage_resolved _ Hguard H) as (w' & -> & Ha & _).
    cbn [fst snd]. unfold History at 1. rewrite Ha. repeat split.
  - destruct (sendMessage_textless _ Hguard H) as (w' & -> & Ha & _).
    cbn [fst snd]. unfold History at 1. rewrite Ha. repeat split.
  - destruct (sendMessage_rejected _ Hguard H) as (w' & -> & Ha & _).
    cbn [fst snd]. unfold History at 1. rewrite Ha. repeat split.
Qed.

Lemma last_app_nonempty {A} (older newer : list A) d :
  newer <> [] -> last (older ++ newer) d = last newer d.
Proof.
  intros Hne. induction older as [|a older IH]; [reflexivity|].
  cbn [app]. destruct (older ++ newer) eqn:E.
  - destruct older, newer; try discriminate. contradiction.
  - rewrite <- IH. reflexivity.
Qed.

Lemma trim_suffix history :
  exists older, history = older ++ trim history.
Proof.
  destruct (Nat.le_gt_cases (length history) 20) as [H|H].
  - exists []. now rewrite trim_untouched.
  - apply trim_triggered in H. destruct H as [-> _].
    eexists. symmetry. apply firstn_skipn.
Qed.

Lemma trim_last history turn d :
  last (trim (history ++ [turn])) d = turn.
Proof.
  destruct (trim_suffix (history ++ [turn])) as [older E].
  assert (Hne : trim (history ++ [turn]) <> []).
  { intros Hn. destruct (Nat.le_gt_cases (length (history ++ [turn])) 20) as [H|H].
    - rewrite trim_untouched in Hn by assumption. now destruct history.
    - apply trim_triggered in H. destruct H as [_ H]. rewrite Hn in H.
      discriminate. }
  rewrite <- (last_app_nonempty older d Hne), <- E. apply last_last.
Qed.



(** C4: when the promise of the request is rejected, the history is
    what it was after the turn of the user was appended.  When it is
    fulfilled with a response without text, the code fails after the
    push: it shows the two errors of a failed request, and the history
    keeps a turn of the model whose content is [undefined]. *)
Theorem failed_call_history :
  forall w generateContent,
    passes_guard w ->
    let request := toModelFormat (History w ++ [userTurn w]) in
    let w' := exec (sendMessage generateContent) w in
    (forall error,
        generateContent request = Rejected error ->
        History w' = History w ++ [userTurn w]
        /\ last (History w') {| role := assistant; content := Undefined |}
           = userTurn w)
    /\ (generateContent request = Resolved Undefined ->
        fst (sendMessage generateContent w) = Normal tt
        /\ History w'
           = trim (History w
                   ++ [userTurn w; {| role := assistant; content := Undefined |}])
        /\ last (History w') (userTurn w)
           = {| role := assistant; content := Undefined |}
        /\ (chat_messages (document w) <> None ->
            system_entries w' = system_entries w + 2)).
Proof.
  intros w generateContent Hguard request w'.
  destruct (sendMessage_History generateContent Hguard) as (Hn & _ & HH).
  fold request w' in HH. split.
  - intros error H. rewrite HH, H. split; [reflexivity | apply last_last].
  - intros H. split; [exact Hn|]. rewrite HH, H.
    split; [reflexivity|]. split.
    + rewrite app_assoc. apply trim_last.
    + intros Hsome.
      destruct (sendMessage_textless _ Hguard H) as (w2 & E & _ & Hc & _).
      unfold w', exec. rewrite E. cbn [snd]. unfold system_entries.
      rewrite Hc.
      destruct (chat_messages (document w)) as [children|]; [|contradiction].
      cbn [option_map]. rewrite remove_by_id_system, filter_app, length_app.
      reflexivity.
Qed.


(** C6: a call of [sendMessage] that goes past its guard completes, and
    leaves the loading flag cleared, whether the request succeeded or
    failed. *)
Theorem loading_cleared_after_send :
  forall w generateContent,
    passes_guard w ->
    fst (sendMessage generateContent w) = Normal tt
    /\ isLoading (appState (exec (sendMessage generateContent) w)) = false.
Proof.
  intros w generateContent Hguard. unfold exec.
  destruct (generateContent (toModelFormat (History w ++ [userTurn w])))
    as [[text|]|error] eqn:H.
  - destruct (sendMessage_resolved _ Hguard H) as (w' & -> & Ha & _).
    cbn [fst snd]. now rewrite Ha.
  - destruct (sendMessage_textless _ Hguard H) as (w' & -> & Ha & _).
    cbn [fst snd]. now rewrite Ha.
  - destruct (sendMessage_rejected _ Hguard H) as (w' & -> & Ha & _).
    cbn [fst snd]. now rewrite Ha.
Qed.

End Conversation.

(** ** The properties on a session of the Latin-1 host *)

#[local] Existing Instance Latin1.host.

Lemma analyze_is_clamped_weighted_count_witness :
  (forall s, @folded Latin1.host (toLowerCase s))
  /\ @analyze Latin1.host (js "Wow, das ist NEU und überraschend!") greeted
     = @spec_analyze Latin1.host (js "Wow, das ist NEU und überraschend!")
  /\ @spec_analyze Latin1.host (js "Wow, das ist NEU und überraschend!") = 60%Z.
Proof.
  split; [exact Latin1Facts.Canonicalize_lowered|].
  split; [|vm_compute; reflexivity].
  pose proof (@analyze_is_clamped_weighted_count Latin1.host
                Latin1Facts.Canonicalize_lowered
                (js "Wow, das ist NEU und überraschend!") greeted)
    as (_ & _ & _ & H & _).
  exact H.
Defined.

Lemma analyze_monotone_and_saturating_witness :
  total_occurrences emergenceKeywords (@toLowerCase Latin1.host (js "neu"))
  <= total_occurrences emergenceKeywords
       (@toLowerCase Latin1.host (js "NEU und kreativ"))
  /\ total_occurrences surpriseWords (@toLowerCase Latin1.host (js "neu"))
     <= total_occurrences surpriseWords
          (@toLowerCase Latin1.host (js "NEU und kreativ"))
  /\ (@analyze Latin1.host (js "neu") greeted
      <= @analyze Latin1.host (js "NEU und kreativ") greeted)%Z.
Proof.
  assert (H1 : total_occurrences emergenceKeywords
                 (@toLowerCase Latin1.host (js "neu"))
               <= total_occurrences emergenceKeywords
                    (@toLowerCase Latin1.host (js "NEU und kreativ")))
    by (vm_compute; lia).
  assert (H2 : total_occurrences surpriseWords
                 (@toLowerCase Latin1.host (js "neu"))
               <= total_occurrences surpriseWords
                    (@toLowerCase Latin1.host (js "NEU und kreativ")))
    by (vm_compute; lia).
  split; [exact H1|]. split; [exact H2|].
  exact (proj1 (@analyze_monotone_and_saturating Latin1.host
                  Latin1Facts.toLowerCase_latin1
                  Latin1Facts.Canonicalize_lowered)
               (js "neu") (js "NEU und kreativ") greeted greeted H1 H2).
Defined.

Lemma analyze_case_insensitive_witness :
  @analyze Latin1.host (js "Überraschend NEU!") greeted
  = @analyze Latin1.host (@toLowerCase Latin1.host (js "Überraschend NEU!")) greeted
  /\ @analyze Latin1.host (js "EMERGENT") greeted
     = @analyze Latin1.host (js "emergent") greeted.
Proof.
  pose proof (@analyze_case_insensitive Latin1.host
                Latin1Facts.toLowerCase_idempotent
                Latin1Facts.toLowerCase_latin1) as [H1 H2].
  split; [apply H1 | apply H2].
Defined.

Lemma analyze_without_keywords_is_zero_witness :
  (forall word, In word (emergenceKeywords ++ surpriseWords) ->
                occurs_in word (@toLowerCase Latin1.host (js "Guten Morgen."))
                = false)
  /\ emergenceScore
       (appState (exec (@analyzeMessage Latin1.host (js "Guten Morgen."))
                       (exec (@analyzeMessage Latin1.host (js "Wow!")) greeted)))
     = 0%Z
  /\ emergenceScore
       (appState (exec (@analyzeMessage Latin1.host (js "Wow!")) greeted))
     = 20%Z.
Proof.
  assert (H : forall word, In word (emergenceKeywords ++ surpriseWords) ->
                occurs_in word (@toLowerCase Latin1.host (js "Guten Morgen."))
                = false).
  { apply Forall_forall. repeat constructor. }
  split; [exact H|]. split; [|vm_compute; reflexivity].
  exact (proj2 (@analyze_without_keywords_is_zero Latin1.host
                  Latin1Facts.toLowerCase_latin1
                  Latin1Facts.Canonicalize_lowered)
               (js "Guten Morgen.") _ H).
Defined.

Lemma surprising_is_counted_twice_witness :
  In 4 (@RegExp.match_indices Latin1.host (new_RegExp_gi (js "überraschend"))
          (@toLowerCase Latin1.host (js "Wie Überraschend")))
  /\ In 4 (@RegExp.match_indices Latin1.host (new_RegExp_gi (js "überrasch"))
             (@toLowerCase Latin1.host (js "Wie Überraschend")))
  /\ @analyze Latin1.host (js "überraschend") greeted = 25%Z.
Proof.
  pose proof (@surprising_is_counted_twice Latin1.host
                Latin1Facts.toLowerCase_latin1
                Latin1Facts.Canonicalize_lowered) as (_ & _ & H3 & _ & H5).
  assert (H : In 4 (@RegExp.match_indices Latin1.host
                      (new_RegExp_gi (js "überraschend"))
                      (@toLowerCase Latin1.host (js "Wie Überraschend"))))
    by (vm_compute; auto).
  split; [exact H|]. split; [exact (H3 _ _ H)|apply H5].
Defined.

Lemma greeted_guard text :
  falsy (String_trim text) = false -> passes_guard (typing text greeted).
Proof. intros H. split; [exact H | reflexivity]. Qed.





Lemma failed_call_history_witness :
  let w := typing (js " Hallo? ") greeted in
  passes_guard w
  /\ History (exec (@sendMessage Latin1.host (failing (js "quota exceeded"))) w)
     = History greeted ++ [{| role := user; content := js "Hallo?" |}]
  /\ History (exec (@sendMessage Latin1.host textless) w)
     = History greeted
       ++ [{| role := user; content := js "Hallo?" |};
           {| role := assistant; content := Undefined |}]
  /\ system_entries (exec (@sendMessage Latin1.host textless) w) = 2.
Proof.
  intros w.
  assert (G : passes_guard w) by (apply greeted_guard; reflexivity).
  split; [exact G|].
  pose proof (@failed_call_history Latin1.host w
                (failing (js "quota exceeded")) G) as [H1 _].
  pose proof (@failed_call_history Latin1.host w textless G) as [_ H2].
  split; [exact (proj1 (H1 {| error_message := js "quota exceeded" |} eq_refl))|].
  destruct (H2 eq_refl) as (_ & HH & _ & HS).
  split; [exact HH|]. apply HS. discriminate.
Defined.



Lemma loading_cleared_after_send_witness :
  let w := typing (js "Hallo?") greeted in
  passes_guard w
  /\ isLoading
       (appState (exec (@sendMessage Latin1.host (failing (js "quota exceeded"))) w))
     = false
  /\ isLoading
       (appState (exec (@sendMessage Latin1.host (answering (js "Wow!"))) w))
     = false.
Proof.
  intros w.
  assert (G : passes_guard w) by (apply greeted_guard; reflexivity).
  split; [exact G|]. split.
  - exact (proj2 (@loading_cleared_after_send Latin1.host w
                    (failing (js "quota exceeded")) G)).
  - exact (proj2 (@loading_cleared_after_send Latin1.host w
                    (answering (js "Wow!")) G)).
Defined.


(** * Further properties of the program *)

(** ** What [addMessage] writes *)

Lemma replace_newlines_app s t :
  replace_newlines (s ++ t) = replace_newlines s ++ replace_newlines t.
Proof.
  induction s as [|c s IH]; [reflexivity|].
  cbn [app replace_newlines]. rewrite IH.
  destruct (c =? LF)%N; [now rewrite <- app_assoc | reflexivity].
Qed.

(** X1: the text [addMessage] puts into the page holds no line feed:
    each one has become the four characters of a line break.  Nothing
    else is changed, so that a text without line feed, markup included,
    is written as it is. *)
Theorem newlines_become_breaks (content : jsstring) :
  ~ In LF (replace_newlines content)
  /\ length (replace_newlines content)
     = length content + 3 * count_occ N.eq_dec content LF
  /\ (~ In LF content -> replace_newlines content = content)
  /\ forall before after,
       content = before ++ [LF] ++ after ->
       replace_newlines content
       = replace_newlines before ++ js "<br>" ++ replace_newlines after.
Proof.
  split; [|split; [|split]].
  - induction content as [|c content IH]; [intros []|].
    cbn [replace_newlines]. destruct (N.eqb_spec c LF) as [->|Hne].
    + intros Hin. apply in_app_or in Hin. destruct Hin as [Hin|Hin]; auto.
      revert Hin. vm_compute. intuition discriminate.
    + intros [Heq|Hin]; auto.
  - induction content as [|c content IH]; [reflexivity|].
    cbn [replace_newlines count_occ].
    destruct (N.eqb_spec c LF) as [->|Hne].
    + destruct (N.eq_dec LF LF) as [_|]; [|contradiction].
      rewrite length_app, IH. cbn [length]. change (length (js "<br>")) with 4.
      lia.
    + destruct (N.eq_dec c LF) as [|_]; [contradiction|].
      cbn [length]. rewrite IH. lia.
  - induction content as [|c content IH]; intros Hno; [reflexivity|].
    cbn [replace_newlines]. destruct (N.eqb_spec c LF) as [->|Hne].
    + exfalso. apply Hno. now left.
    + rewrite IH; [reflexivity|]. intros Hin. apply Hno. now right.
  - intros before after ->. rewrite !replace_newlines_app. reflexivity.
Qed.

Lemma newlines_become_breaks_witness :
  ~ In LF (js "<b>neu</b>")
  /\ replace_newlines (js "<b>neu</b>") = js "<b>neu</b>".
Proof.
  assert (H : ~ In LF (js "<b>neu</b>")) by (vm_compute; intuition discriminate).
  split; [exact H|].
  exact (proj1 (proj2 (proj2 (newlines_become_breaks (js "<b>neu</b>")))) H).
Defined.

(** ** The guard of [sendMessage] *)

Lemma trimStart_split s :
  exists spaces,
    s = spaces ++ trimStart s
    /\ Forall (fun c => isWhiteSpace c = true) spaces.
Proof.
  induction s as [|c s (spaces & Hs & Hall)].
  - exists []. split; [reflexivity | constructor].
  - cbn [trimStart]. destruct (isWhiteSpace c) eqn:E.
    + exists (c :: spaces). split.
      * cbn [app]. now rewrite <- Hs.
      * now constructor.
    + exists []. split; [reflexivity | constructor].
Qed.

Lemma trimStart_head s c rest :
  trimStart s = c :: rest -> isWhiteSpace c = false.
Proof.
  induction s as [|c' s IH]; [discriminate|].
  cbn [trimStart]. destruct (isWhiteSpace c') eqn:E; auto.
  intros H. now injection H as -> _.
Qed.

Lemma trimStart_spaces s :
  Forall (fun c => isWhiteSpace c = true) s -> trimStart s = [].
Proof.
  induction 1 as [|c s Hc _ IH]; [reflexivity|].
  cbn [trimStart]. now rewrite Hc.
Qed.

(** What [String.prototype.trim] leaves: the input is spaces, the
    result and spaces again, and the result neither begins nor ends
    with a space. *)
Lemma String_trim_spec s :
  exists before after,
    s = before ++ String_trim s ++ after
    /\ Forall (fun c => isWhiteSpace c = true) before
    /\ Forall (fun c => isWhiteSpace c = true) after
    /\ (forall c rest, String_trim s = c :: rest -> isWhiteSpace c = false)
    /\ (forall c rest, String_trim s = rest ++ [c] -> isWhiteSpace c = false).
Proof.
  destruct (trimStart_split s) as (before & Hs & Hbefore).
  destruct (trimStart_split (rev (trimStart s))) as (after & Hr & Hafter).
  assert (Ht : trimStart s = String_trim s ++ rev after).
  { unfold String_trim. rewrite <- rev_app_distr, <- Hr. now rewrite rev_involutive. }
  exists before, (rev after). repeat split.
  - now rewrite <- Ht.
  - exact Hbefore.
  - apply Forall_rev. exact Hafter.
  - intros c rest Hc. rewrite Hc in Ht. cbn [app] in Ht.
    eapply trimStart_head. exact Ht.
  - intros c rest Hc. unfold String_trim in Hc.
    apply (f_equal (@rev _)) in Hc.
    rewrite rev_involutive, rev_app_distr in Hc. cbn [rev app] in Hc.
    eapply trimStart_head. exact Hc.
Qed.

Lemma String_trim_spaces s :
  Forall (fun c => isWhiteSpace c = true) s -> String_trim s = [].
Proof.
  intros H. unfold String_trim. now rewrite (trimStart_spaces H).
Qed.

Section Guard.
Context {host : Host}.

(** X2: a message of spaces, tabs and line ends only, an empty one
    included, and a message submitted while a request is under way are
    dropped: [sendMessage] leaves the history, the transcript and the
    input field as they are and sends nothing. *)
Theorem ignored_message_changes_nothing :
  forall w generateContent,
    Forall (fun c => isWhiteSpace c = true) (chat_input (document w))
    \/ isLoading (appState w) = true ->
    sendMessage generateContent w = (Normal tt, w).
Proof.
  intros w generateContent H. apply sendMessage_guarded.
  destruct H as [H|H]; [left | now right].
  now rewrite (String_trim_spaces H).
Qed.

(** X3: the turn appended for the user holds the text of the input
    field without the spaces around it: the field is spaces, that text,
    and spaces; the text is not empty and neither begins nor ends with
    a space.  While the request is under way this turn is the last one
    of the history, the flag is set and the field is empty. *)
Theorem user_turn_is_the_trimmed_input :
  forall w,
    passes_guard w ->
    let sent := String_trim (chat_input (document w)) in
    History (requesting w) = History w ++ [{| role := user; content := sent |}]
    /\ isLoading (appState (requesting w)) = true
    /\ chat_input (document (requesting w)) = []
    /\ sent <> []
    /\ (exists before after,
           chat_input (document w) = before ++ sent ++ after
           /\ Forall (fun c => isWhiteSpace c = true) before
           /\ Forall (fun c => isWhiteSpace c = true) after)
    /\ (forall c rest, sent = c :: rest -> isWhiteSpace c = false)
    /\ (forall c rest, sent = rest ++ [c] -> isWhiteSpace c = false).
Proof.
  intros w [Hmsg _] sent.
  destruct (requesting_state w) as (Ha & Hi & _).
  destruct (String_trim_spec (chat_input (document w)))
    as (before & after & Hs & Hb & Hafter & Hhead & Hlast).
  split; [unfold History; now rewrite Ha|].
  split; [now rewrite Ha|]. split; [exact Hi|].
  split; [intros E; unfold sent in E; now rewrite E in Hmsg|].
  split; [now exists before, after|]. split; assumption.
Qed.

Lemma getAIResponse_ext g1 g2 w :
  g1 (toModelFormat (History w)) = g2 (toModelFormat (History w)) ->
  getAIResponse g1 w = getAIResponse g2 w.
Proof.
  intros H. unfold getAIResponse. run. unfold try_catch.
  unfold toModelFormat, History in H. now rewrite H.
Qed.

(** X4: the model is asked once, with the whole history and the turn of
    the user at its end, each turn translated in its place.  What
    [sendMessage] does depends on the collaborator at that request
    only, and it does depend on it: the history after the call is
    decided by the response to that request, two responses with
    different texts leave different histories, and so do a response and
    a failure. *)
Theorem request_is_the_whole_history :
  forall w g1 g2,
    passes_guard w ->
    let request := toModelFormat (History w ++ [userTurn w]) in
    (g1 request = g2 request -> sendMessage g1 w = sendMessage g2 w)
    /\ History (exec (sendMessage g1) w)
       = match g1 request with
         | Resolved text =>
           trim (History w
                 ++ [userTurn w; {| role := assistant; content := text |}])
         | Rejected _ => History w ++ [userTurn w]
         end
    /\ (forall text1 text2,
           g1 request = Resolved text1 ->
           g2 request = Resolved text2 ->
           text1 <> text2 ->
           History (exec (sendMessage g1) w)
           <> History (exec (sendMessage g2) w))
    /\ (forall text error,
           g1 request = Resolved text ->
           g2 request = Rejected error ->
           History (exec (sendMessage g1) w)
           <> History (exec (sendMessage g2) w)).
Proof.
  intros w g1 g2 Hguard request.
  destruct (sendMessage_History g1 Hguard) as (_ & _ & H1).
  destruct (sendMessage_History g2 Hguard) as (_ & _ & H2).
  fold request in H1, H2. split; [|split; [exact H1|split]].
  - intros H. rewrite !sendMessage_at_request by assumption.
    assert (HH : History (requesting w) = History w ++ [userTurn w])
      by apply requesting_History.
    unfold request in H. rewrite <- HH in H. apply getAIResponse_ext in H.
    unfold bind, try_catch. now rewrite H.
  - intros text1 text2 E1 E2 Hne E. rewrite H1, H2, E1, E2 in E.
    apply (f_equal (fun h => last h (userTurn w))) in E.
    rewrite !app_assoc, !trim_last in E. injection E as E. contradiction.
  - intros text error E1 E2 E. rewrite H1, H2, E1, E2 in E.
    apply (f_equal (fun h => last h (userTurn w))) in E.
    rewrite !app_assoc, trim_last, last_last in E. discriminate.
Qed.

(** X5: while a request is under way, a further message, typed or
    suggested, only changes the text of the input field: no second
    request is sent, and the history and the transcript stay as they
    are. *)
Theorem no_second_request :
  forall w text generateContent,
    passes_guard w ->
    sendSuggestion text generateContent (requesting w)
    = (Normal tt, typing text (requesting w)).
Proof.
  intros w text generateContent Hguard. unfold sendSuggestion. run.
  fold (typing text (requesting w)).
  apply sendMessage_guarded. right.
  destruct (requesting_state w) as (Ha & _).
  cbn [typing appState]. now rewrite Ha.
Qed.

End Guard.

(** X6: the request keeps the turns in their order, one entry with one
    part per turn, the model's turns under the role [model] and the
    user's under [user]; two histories that differ give requests that
    differ. *)
Theorem toModelFormat_is_faithful :
  (forall history, length (toModelFormat history) = length history)
  /\ (forall history n turn,
         nth_error history n = Some turn ->
         nth_error (toModelFormat history) n
         = Some {| content_role :=
                     match role turn with
                     | assistant => role_model
                     | user => role_user
                     end;
                   parts := [content turn] |})
  /\ (forall h1 h2, toModelFormat h1 = toModelFormat h2 -> h1 = h2).
Proof.
  unfold toModelFormat. split; [|split].
  - intros history. apply length_map.
  - intros history n turn H. now rewrite nth_error_map, H.
  - induction h1 as [|[r1 c1] h1 IH]; intros [|[r2 c2] h2] H;
      try discriminate; [reflexivity|].
    cbn [map] in H. injection H as Hr Hc Ht.
    rewrite (IH _ Ht). subst c2.
    destruct r1, r2; try discriminate; reflexivity.
Qed.

(** ** What one message changes *)

Lemma plain_app s t : plain s -> plain t -> plain (s ++ t).
Proof.
  unfold plain. intros Hs Ht Hin. apply in_app_or in Hin. tauto.
Qed.

Lemma plain_trim s : plain s -> plain (String_trim s).
Proof.
  unfold plain. intros Hs Hin. apply Hs.
  destruct (String_trim_spec s) as (before & after & E & _).
  rewrite E. apply in_or_app. right. apply in_or_app. now left.
Qed.

Lemma plain_api_error_text error :
  plain (error_message error) -> plain (api_error_text error).
Proof.
  intros H. apply plain_app; [|exact H].
  unfold plain. vm_compute. intuition discriminate.
Qed.

Lemma plain_retry_error_text error :
  plain (error_message error) -> plain (retry_error_text error).
Proof.
  intros H. unfold retry_error_text.
  apply plain_app; [unfold plain; vm_compute; intuition discriminate|].
  apply plain_app; [exact H|].
  apply plain_app; unfold plain; vm_compute; intuition discriminate.
Qed.

Section Effects.
Context {host : Host}.

(** Markup made of a plain text and line breaks holds no element with
    an id. *)
Hypothesis plain_markup :
  forall i content,
    plain content -> without_element i (replace_newlines content) = None.

Lemma messageDiv_inert content type :
  plain content -> inert (messageDiv content type).
Proof.
  intros H. split; [discriminate|]. cbn [messageDiv innerHTML].
  now apply plain_markup.
Qed.

Lemma remove_thinking children rest :
  Forall inert children ->
  remove_by_id thinking_message (children ++ thinkingDiv :: rest)
  = children ++ rest.
Proof.
  induction 1 as [|e children [He Hin] _ IH]; cbn [app remove_by_id].
  - unfold has_id, id. cbn [className thinkingDiv].
    destruct (list_eq_dec N.eq_dec thinking_message thinking_message);
      [reflexivity | contradiction].
  - unfold has_id at 1, id. destruct (className e); [|contradiction].
    destruct (list_eq_dec N.eq_dec [] thinking_message); [discriminate|].
    now rewrite Hin, IH.
Qed.

Lemma remove_thinking_after children e rest :
  Forall inert children ->
  inert e ->
  remove_by_id thinking_message (children ++ e :: thinkingDiv :: rest)
  = children ++ e :: rest.
Proof.
  intros Hc He.
  change (children ++ e :: thinkingDiv :: rest)
    with (children ++ [e] ++ thinkingDiv :: rest).
  rewrite app_assoc, remove_thinking.
  - now rewrite <- app_assoc.
  - apply Forall_app. split; [assumption|]. now constructor.
Qed.

(** X7: a message that is answered adds to the transcript the message of
    the user and, after it, the answer, and nothing else: the thinking
    message is gone again.  This is so when the transcript holds
    nothing that passes for the thinking message, and the message and
    the answer are plain texts, which put no element of their own into
    the page.  The turn of the user and the answer are appended to the
    history, which is then trimmed; the score stored is the score of
    the answer alone; the input field is empty and the page is ready
    for the next message. *)
Theorem answered_message_effect :
  forall w generateContent (text : jsstring),
    idle w ->
    falsy (String_trim (chat_input (document w))) = false ->
    plain (String_trim (chat_input (document w))) ->
    plain text ->
    generateContent (toModelFormat (History w ++ [userTurn w])) = Resolved text ->
    let w' := exec (sendMessage generateContent) w in
    transcript w'
    = transcript w ++ [messageDiv (String_trim (chat_input (document w))) human;
                       messageDiv text ai]
    /\ History w'
       = trim (History w ++ [userTurn w; {| role := assistant; content := text |}])
    /\ emergenceScore (appState w') = analyze text w
    /\ chat_input (document w') = []
    /\ idle w'.
Proof.
  intros w generateContent text (Hload & children & Hc & Hno) Hmsg Hsent Htext
         Hgen w'.
  assert (Hguard : passes_guard w) by now split.
  destruct (sendMessage_resolved generateContent Hguard Hgen)
    as (w2 & E & Ha & HT & Hi).
  unfold w', exec. rewrite E. cbn [snd].
  rewrite Hc in HT. cbn [option_map] in HT.
  rewrite remove_thinking_after in HT
    by (assumption || now apply messageDiv_inert).
  unfold transcript, idle, History. rewrite HT, Hc, Ha, Hi.
  cbn [conversationHistory emergenceScore isLoading set_isLoading
       set_emergenceScore set_conversationHistory].
  repeat split.
  eexists. split; [reflexivity|].
  apply Forall_app. split; [assumption|].
  constructor; [now apply messageDiv_inert|].
  constructor; [now apply messageDiv_inert | constructor].
Qed.

(** X8: a message whose request fails adds to the transcript the message
    of the user, the error of the request and the advice to try again,
    in this order, both errors quoting the message of the failure.
    This is so when the transcript holds nothing that passes for the
    thinking message, and the message of the user and that of the
    failure are plain texts.  The history keeps the turn of the user,
    the score stays as it was, the input field is empty and the page is
    ready for the next message. *)
Theorem failed_message_effect :
  forall w generateContent error,
    idle w ->
    falsy (String_trim (chat_input (document w))) = false ->
    plain (String_trim (chat_input (document w))) ->
    plain (error_message error) ->
    generateContent (toModelFormat (History w ++ [userTurn w])) = Rejected error ->
    let w' := exec (sendMessage generateContent) w in
    transcript w'
    = transcript w ++ [messageDiv (String_trim (chat_input (document w))) human;
                       messageDiv (api_error_text error) system;
                       messageDiv (retry_error_text error) system]
    /\ History w' = History w ++ [userTurn w]
    /\ emergenceScore (appState w') = emergenceScore (appState w)
    /\ chat_input (document w') = []
    /\ idle w'.
Proof.
  intros w generateContent error (Hload & children & Hc & Hno) Hmsg Hsent Herr
         Hgen w'.
  assert (Hguard : passes_guard w) by now split.
  destruct (sendMessage_rejected generateContent Hguard Hgen)
    as (w2 & E & Ha & HT & Hi & _).
  unfold w', exec. rewrite E. cbn [snd].
  rewrite Hc in HT. cbn [option_map] in HT.
  rewrite remove_thinking_after in HT
    by (assumption || now apply messageDiv_inert).
  unfold transcript, idle, History. rewrite HT, Hc, Ha, Hi.
  cbn [conversationHistory emergenceScore isLoading set_isLoading
       set_conversationHistory].
  repeat split.
  eexists. split; [reflexivity|].
  apply Forall_app. split; [assumption|].
  constructor; [now apply messageDiv_inert|].
  constructor; [apply messageDiv_inert; now apply plain_api_error_text|].
  constructor; [apply messageDiv_inert; now apply plain_retry_error_text|].
  constructor.
Qed.

End Effects.

(** ** Sessions *)

Lemma trim_nonempty history : history <> [] -> trim history <> [].
Proof.
  intros Hne Htrim.
  destruct (Nat.le_gt_cases (length history) 20) as [H|H].
  - rewrite trim_untouched in Htrim by assumption. contradiction.
  - apply trim_triggered in H. destruct H as [_ H].
    rewrite Htrim in H. discriminate.
Qed.

Section Histories.
Context {host : Host}.

Lemma submit_send w s :
  submit w s = exec (sendMessage (generateContent s)) (typing (typed s) w).
Proof. unfold submit, sendSuggestion, exec. run. reflexivity. Qed.

Lemma typing_History text w : History (typing text w) = History w.
Proof. reflexivity. Qed.

(** What a submission does to the history, whatever the page shows. *)
Lemma submit_History w s :
  isLoading (appState w) = false ->
  let sent := {| role := user; content := String_trim (typed s) |} in
  isLoading (appState (submit w s)) = false
  /\ History (submit w s)
     = if falsy (String_trim (typed s)) then History w
       else match generateContent s (toModelFormat (History w ++ [sent])) with
            | Resolved text =>
              trim (History w ++ [sent; {| role := assistant; content := text |}])
            | Rejected _ => History w ++ [sent]
            end.
Proof.
  intros Hload sent. rewrite submit_send.
  destruct (falsy (String_trim (typed s))) eqn:Hmsg.
  - unfold exec. rewrite sendMessage_guarded by (left; exact Hmsg).
    split; [exact Hload | reflexivity].
  - assert (Hguard : passes_guard (typing (typed s) w)) by (split; assumption).
    destruct (sendMessage_History (generateContent s) Hguard) as (_ & Hl & HH).
    split; [exact Hl | exact HH].
Qed.

Lemma submit_ready w s :
  isLoading (appState w) = false -> History w <> [] ->
  isLoading (appState (submit w s)) = false /\ History (submit w s) <> [].
Proof.
  intros Hload Hne. destruct (submit_History w s Hload) as [Hl HH].
  split; [exact Hl|]. rewrite HH.
  destruct (falsy (String_trim (typed s))); [exact Hne|].
  destruct (generateContent s _).
  - apply trim_nonempty. now destruct (History w).
  - now destruct (History w).
Qed.

Lemma run_ready submissions w :
  isLoading (appState w) = false -> History w <> [] ->
  isLoading (appState (fold_left submit submissions w)) = false
  /\ History (fold_left submit submissions w) <> [].
Proof.
  revert w. induction submissions as [|s submissions IH]; intros w Hload Hne.
  - split; assumption.
  - cbn [fold_left]. destruct (submit_ready w s Hload Hne) as [Hl Hn].
    now apply IH.
Qed.

Lemma session_ready submissions :
  isLoading (appState (session submissions)) = false
  /\ History (session submissions) <> [].
Proof. unfold session. apply run_ready; [reflexivity | discriminate]. Qed.

Lemma request_length text w :
  length (toModelFormat (History (requesting (typing text w))))
  = length (History w) + 1.
Proof.
  unfold toModelFormat. rewrite length_map, requesting_History, length_app.
  reflexivity.
Qed.

Lemma unanswered_History submissions w :
  isLoading (appState w) = false ->
  Forall is_unanswered submissions ->
  isLoading (appState (fold_left submit submissions w)) = false
  /\ length (History (fold_left submit submissions w))
     = length (History w) + length submissions.
Proof.
  intros Hload Hall. revert w Hload.
  induction Hall as [|s submissions [Hmsg Hrej] _ IH]; intros w Hload.
  - cbn [fold_left length]. split; [exact Hload | lia].
  - cbn [fold_left]. destruct (submit_History w s Hload) as [Hl HH].
    rewrite Hmsg in HH.
    destruct (Hrej (toModelFormat
                      (History w ++ [{| role := user;
                                        content := String_trim (typed s) |}])))
      as [error E].
    rewrite E in HH. destruct (IH _ Hl) as [Hl' HH'].
    split; [exact Hl'|]. rewrite HH', HH, length_app. cbn [length]. lia.
Qed.

Lemma answered_step w s :
  isLoading (appState w) = false -> is_answered s ->
  isLoading (appState (submit w s)) = false
  /\ length (History (submit w s))
     = (if 20 <? length (History w) + 2 then 18 else length (History w) + 2).
Proof.
  intros Hload [Hmsg Hans]. destruct (submit_History w s Hload) as [Hl HH].
  split; [exact Hl|]. rewrite Hmsg in HH.
  destruct (Hans (toModelFormat
                    (History w ++ [{| role := user;
                                      content := String_trim (typed s) |}])))
    as [text E].
  rewrite E in HH. rewrite HH.
  assert (Hlen : length (History w
                         ++ [{| role := user; content := String_trim (typed s) |};
                             {| role := assistant; content := text |}])
                 = length (History w) + 2)
    by (rewrite length_app; reflexivity).
  destruct (Nat.ltb_spec 20 (length (History w) + 2)) as [H|H].
  - rewrite <- Hlen in H. apply trim_triggered in H. apply H.
  - rewrite trim_untouched; lia.
Qed.

(** X12: when every message is answered, the history holds [2n + 1]
    turns after [n] messages up to the ninth, and from the tenth on 18
    turns after an even number of messages and 20 after an odd one; so
    no request holds more than 21 turns. *)
Theorem answered_session_length :
  forall submissions,
    Forall is_answered submissions ->
    let n := length submissions in
    length (History (session submissions))
    = (if n <=? 9 then 2 * n + 1 else if Nat.even n then 18 else 20)
    /\ forall text,
         length (toModelFormat
                   (History (requesting (typing text (session submissions)))))
         <= 21.
Proof.
  intros submissions Hall n.
  assert (H : isLoading (appState (session submissions)) = false
              /\ length (History (session submissions))
                 = (if n <=? 9 then 2 * n + 1
                    else if Nat.even n then 18 else 20)).
  { subst n. induction submissions as [|s submissions IH] using rev_ind.
    - split; reflexivity.
    - apply Forall_app in Hall. destruct Hall as [Hall Hs].
      inversion Hs as [|? ? Hans _]; subst.
      destruct (IH Hall) as [Hi HH].
      unfold session in *. rewrite fold_left_app. cbn [fold_left].
      destruct (answered_step _ Hi Hans) as [Hi' HH'].
      split; [exact Hi'|]. rewrite HH', HH, length_app. cbn [length].
      replace (length submissions + 1) with (S (length submissions)) by lia.
      rewrite Nat.even_succ, <- Nat.negb_even.
      destruct (Nat.leb_spec (length submissions) 9) as [H9|H9].
      + destruct (Nat.leb_spec (S (length submissions)) 9) as [H9'|H9'].
        * destruct (Nat.ltb_spec 20 (2 * length submissions + 1 + 2)); lia.
        * assert (E : length submissions = 9) by lia. rewrite E. reflexivity.
      + destruct (Nat.leb_spec (S (length submissions)) 9) as [H9'|H9']; [lia|].
        destruct (Nat.even (length submissions)); reflexivity. }
  destruct H as [Hi HH]. split; [exact HH|].
  intros text. rewrite request_length, HH.
  destruct (n <=? 9) eqn:E9; [apply Nat.leb_le in E9; lia|].
  destruct (Nat.even n); lia.
Qed.

End Histories.

Section Transcripts.
Context {host : Host}.

Hypothesis plain_markup :
  forall i content,
    plain content -> without_element i (replace_newlines content) = None.

(** The message of a [TypeError] quotes the property and holds no
    markup. *)
Hypothesis TypeError_plain :
  forall property, plain property -> plain (TypeError_message property).

Lemma typing_idle text w : idle w -> idle (typing text w).
Proof.
  intros (Hload & children & Hc & Hno). split; [exact Hload|].
  exists children. split; [exact Hc | exact Hno].
Qed.

Lemma greeting_idle : idle greeted.
Proof.
  split; [reflexivity|]. eexists. split; [reflexivity|].
  constructor; [|constructor].
  apply (messageDiv_inert plain_markup). unfold plain. vm_compute.
  intuition discriminate.
Qed.

(** What a submission of plain texts does to the transcript. *)
Lemma submit_plain w s :
  idle w -> is_plain s ->
  idle (submit w s)
  /\ exists more,
       transcript (submit w s) = transcript w ++ more
       /\ length more <= 3
       /\ (is_unanswered s -> length more = 3).
Proof.
  intros Hidle [Htyped Hplain]. rewrite submit_send.
  pose proof Hidle as (Hload & children & Hc & Hno).
  destruct (falsy (String_trim (typed s))) eqn:Hmsg.
  - unfold exec. rewrite sendMessage_guarded by (left; exact Hmsg).
    cbn [snd]. split; [now apply typing_idle|].
    exists []. split; [now rewrite app_nil_r|]. split; [cbn; lia|].
    intros [Hne _]. congruence.
  - set (typed_world := typing (typed s) w).
    assert (Hguard : passes_guard typed_world) by (split; assumption).
    assert (Hsent : inert (messageDiv (String_trim (typed s)) human)).
    { apply (messageDiv_inert plain_markup). now apply plain_trim. }
    assert (Herrors : forall error,
               plain (error_message error) ->
               Forall inert [messageDiv (api_error_text error) system;
                             messageDiv (retry_error_text error) system]).
    { intros error Herr.
      constructor;
        [apply (messageDiv_inert plain_markup); now apply plain_api_error_text|].
      constructor;
        [apply (messageDiv_inert plain_markup); now apply plain_retry_error_text|].
      constructor. }
    pose proof (Hplain (toModelFormat (History typed_world ++ [userTurn typed_world])))
      as Hp.
    unfold exec.
    destruct (generateContent s
                (toModelFormat (History typed_world ++ [userTurn typed_world])))
      as [[text|]|error] eqn:Hgen.
    + destruct (sendMessage_resolved (generateContent s) Hguard Hgen)
        as (w' & E & Ha & HT & _).
      rewrite E. cbn [snd].
      cbn [typed_world typing document chat_messages set_chat_input] in HT.
      rewrite Hc in HT. cbn [option_map chat_input] in HT.
      rewrite remove_thinking_after in HT by assumption.
      unfold transcript, idle. rewrite HT, Hc, Ha. split.
      * split; [reflexivity|]. eexists. split; [reflexivity|].
        apply Forall_app. split; [assumption|].
        constructor; [assumption|].
        constructor; [now apply (messageDiv_inert plain_markup) | constructor].
      * eexists. split; [reflexivity|]. split; [cbn; lia|].
        intros [_ Hrej].
        destruct (Hrej (toModelFormat
                          (History typed_world ++ [userTurn typed_world])))
          as [error E']. congruence.
    + destruct (sendMessage_textless (generateContent s) Hguard Hgen)
        as (w' & E & Ha & HT & _).
      rewrite E. cbn [snd].
      cbn [typed_world typing document chat_messages set_chat_input] in HT.
      rewrite Hc in HT. cbn [option_map chat_input] in HT.
      rewrite remove_thinking_after in HT by assumption.
      unfold transcript, idle. rewrite HT, Hc, Ha. split.
      * split; [reflexivity|]. eexists. split; [reflexivity|].
        apply Forall_app. split; [assumption|].
        constructor; [assumption|]. apply Herrors.
        apply TypeError_plain. unfold plain. vm_compute. intuition discriminate.
      * eexists. split; [reflexivity|]. split; [cbn; lia|]. reflexivity.
    + destruct (sendMessage_rejected (generateContent s) Hguard Hgen)
        as (w' & E & Ha & HT & _).
      rewrite E. cbn [snd].
      cbn [typed_world typing document chat_messages set_chat_input] in HT.
      rewrite Hc in HT. cbn [option_map chat_input] in HT.
      rewrite remove_thinking_after in HT by assumption.
      unfold transcript, idle. rewrite HT, Hc, Ha. split.
      * split; [reflexivity|]. eexists. split; [reflexivity|].
        apply Forall_app. split; [assumption|].
        constructor; [assumption|]. now apply Herrors.
      * eexists. split; [reflexivity|]. split; [cbn; lia|]. reflexivity.
Qed.

Lemma run_plain submissions w :
  idle w -> Forall is_plain submissions ->
  idle (fold_left submit submissions w)
  /\ exists more,
       transcript (fold_left submit submissions w) = transcript w ++ more
       /\ length more <= 3 * length submissions
       /\ (Forall is_unanswered submissions ->
           length more = 3 * length submissions).
Proof.
  intros Hidle Hall. revert w Hidle.
  induction Hall as [|s submissions Hs _ IH]; intros w Hidle.
  - split; [exact Hidle|].
    exists []. split; [now rewrite app_nil_r|]. split; [cbn; lia|reflexivity].
  - destruct (submit_plain Hidle Hs) as (Hi & more1 & HT1 & Hl1 & Hu1).
    destruct (IH _ Hi) as (Hi' & more2 & HT2 & Hl2 & Hu2).
    cbn [fold_left]. split; [exact Hi'|].
    exists (more1 ++ more2). split; [now rewrite HT2, HT1, app_assoc|].
    rewrite length_app. cbn [length]. split; [lia|].
    intros Hun. inversion Hun as [|? ? H1 H2]; subst.
    rewrite (Hu1 H1), (Hu2 H2). lia.
Qed.

(** X9: whatever is submitted and however the requests end, after every
    message the flag is cleared and the history is not empty: the page
    never stays blocked and every request holds at least two turns.
    When all the texts are plain, the transcript shows no thinking
    message either. *)
Theorem session_is_idle :
  forall submissions,
    isLoading (appState (session submissions)) = false
    /\ History (session submissions) <> []
    /\ (forall text,
           falsy (String_trim text) = false ->
           2 <= length (toModelFormat
                          (History (requesting (typing text (session submissions))))))
    /\ (Forall is_plain submissions -> idle (session submissions)).
Proof.
  intros submissions. destruct (session_ready submissions) as [Hl Hn].
  split; [exact Hl|]. split; [exact Hn|]. split.
  - intros text _. rewrite request_length.
    destruct (History (session submissions)); [contradiction|].
    cbn [length]. lia.
  - intros Hall. unfold session. fold greeted.
    now apply run_plain; [apply greeting_idle|].
Qed.

(** X10: as long as the texts are plain, the transcript is never
    trimmed and never rewritten: every further message leaves what is
    shown in place and adds at most three entries. *)
Theorem transcript_only_grows :
  forall submissions further,
    Forall is_plain submissions ->
    Forall is_plain further ->
    exists more,
      transcript (session (submissions ++ further))
      = transcript (session submissions) ++ more
      /\ length more <= 3 * length further.
Proof.
  intros submissions further Hs Hf. unfold session. rewrite fold_left_app.
  fold greeted.
  destruct (run_plain greeting_idle Hs) as (Hi & _).
  destruct (run_plain Hi Hf) as (_ & more & HT & Hl & _).
  now exists more.
Qed.

(** X11: a message whose request fails is appended to the history
    without a trim: after [n] such messages in a row the history holds
    the opening turn and all [n] of them, beyond any bound; and when
    the texts are plain, the transcript holds three entries for each. *)
Theorem unanswered_messages_accumulate :
  forall submissions,
    Forall is_unanswered submissions ->
    length (History (session submissions)) = 1 + length submissions
    /\ (Forall is_plain submissions ->
        length (transcript (session submissions)) = 1 + 3 * length submissions).
Proof.
  intros submissions Hall. unfold session. fold greeted. split.
  - destruct (@unanswered_History host submissions greeted eq_refl Hall)
      as [_ HH].
    exact HH.
  - intros Hplain.
    destruct (run_plain greeting_idle Hplain) as (_ & more & HT & _ & Hu).
    rewrite HT, length_app, (Hu Hall). reflexivity.
Qed.

End Transcripts.


(** ** Which texts score *)

Lemma occurrences_present keyword s :
  keyword <> [] -> occurs_in keyword s = true -> 1 <= occurrences keyword s.
Proof.
  intros Hne. funelim (occurrences keyword s); intros Hocc.
  - destruct keyword; [contradiction | discriminate].
  - lia.
  - apply H; [assumption|].
    cbn [occurs_in] in Hocc. now rewrite Heq in Hocc.
Qed.

Lemma total_occurrences_cons word words s :
  total_occurrences (word :: words) s
  = occurrences word s + total_occurrences words s.
Proof. reflexivity. Qed.

Lemma total_occurrences_zero words s :
  total_occurrences words s = 0 <->
  forall word, In word words -> occurrences word s = 0.
Proof.
  induction words as [|word words IH].
  - split; [intros _ ? [] | reflexivity].
  - rewrite total_occurrences_cons. split.
    + intros H x [<- | Hin]; [lia|]. apply IH; [lia | assumption].
    + intros H. rewrite (H word) by now left.
      apply IH. intros x Hx. apply H. now right.
Qed.

Section Scores.
Context {host : Host}.

Hypothesis Canonicalize_lowered : forall s, folded (toLowerCase s).

Lemma score_from_occurrences text w :
  analyze text w
  = Z.min (15 * Z.of_nat (total_occurrences emergenceKeywords (toLowerCase text))
           + Z.of_nat (total_occurrences surpriseWords (toLowerCase text)) * 10)
          100.
Proof.
  rewrite analyze_score.
  rewrite !total_matches_occurrences;
    auto using words_in_alphabet, incl_appl, incl_appr, incl_refl.
Qed.

(** X13: the score is 0 exactly for the texts whose lower-case form
    holds none of the keywords and none of the markers, inside a longer
    word or not; every other text scores at least 10, and at least 15
    when it holds an emergence keyword. *)
Theorem score_is_zero_only_without_keywords :
  forall text w,
    (analyze text w = 0%Z <->
     forall word, In word (emergenceKeywords ++ surpriseWords) ->
                  occurs_in word (toLowerCase text) = false)
    /\ (analyze text w = 0 \/ 10 <= analyze text w)%Z
    /\ (forall keyword,
           In keyword emergenceKeywords ->
           occurs_in keyword (toLowerCase text) = true ->
           (15 <= analyze text w)%Z).
Proof.
  intros text w. rewrite score_from_occurrences.
  set (lowered := toLowerCase text).
  assert (Hwords : forall word,
             In word (emergenceKeywords ++ surpriseWords) -> word <> []).
  { intros word Hin.
    pose proof (words_in_alphabet (incl_refl _)) as H.
    rewrite Forall_forall in H. destruct (H word Hin) as [Hne _]. exact Hne. }
  split; [split|split].
  - intros Hz word Hin.
    destruct (occurs_in word lowered) eqn:E; [|reflexivity].
    apply occurrences_present in E; [|now apply Hwords].
    assert (He : total_occurrences emergenceKeywords lowered = 0) by lia.
    assert (Hs : total_occurrences surpriseWords lowered = 0) by lia.
    rewrite total_occurrences_zero in He, Hs.
    apply in_app_or in Hin. destruct Hin as [Hin|Hin];
      [apply He in Hin | apply Hs in Hin]; lia.
  - intros Habs.
    assert (He : total_occurrences emergenceKeywords lowered = 0).
    { apply total_occurrences_zero. intros word Hin.
      apply occurrences_absent, Habs, in_or_app. now left. }
    assert (Hs : total_occurrences surpriseWords lowered = 0).
    { apply total_occurrences_zero. intros word Hin.
      apply occurrences_absent, Habs, in_or_app. now right. }
    rewrite He, Hs. reflexivity.
  - lia.
  - intros keyword Hin Hocc.
    apply occurrences_present in Hocc;
      [|apply Hwords, in_or_app; now left].
    destruct (total_occurrences emergenceKeywords lowered) eqn:E; [|lia].
    rewrite total_occurrences_zero in E. apply E in Hin. lia.
Qed.

End Scores.

Lemma score_is_zero_only_without_keywords_witness :
  (forall s, @folded Latin1.host (toLowerCase s))
  /\ occurs_in (js "neu") (toLowerCase (js "Wir ERNEUERN das.")) = true
  /\ (15 <= analyze (js "Wir ERNEUERN das.") greeted)%Z.
Proof.
  split; [exact Latin1Facts.Canonicalize_lowered|].
  assert (H : occurs_in (js "neu") (toLowerCase (js "Wir ERNEUERN das.")) = true)
    by (vm_compute; reflexivity).
  split; [exact H|].
  assert (Hin : In (js "neu") emergenceKeywords) by (vm_compute; tauto).
  exact (proj2 (proj2 (@score_is_zero_only_without_keywords Latin1.host
                         Latin1Facts.Canonicalize_lowered
                         (js "Wir ERNEUERN das.") greeted))
               (js "neu") Hin H).
Defined.

(** X14: the score is a multiple of 5, and the analysis of a text
    touches the indicator exactly when the score is 45 or more, that is
    above 40: it switches it on and registers one more timeout, which
    switches it off again when it fires, three seconds later.  A lower
    score leaves the indicator and its timeouts as they are, and a page
    without indicator stays without. *)
Theorem indicator_lights_from_45 {host : Host} :
  forall (text : jsstring) w,
    let w' := exec (analyzeMessage text) w in
    (analyze text w mod 5 = 0)%Z
    /\ emergence_indicator (document w')
       = option_map
           (fun indicator =>
              if (45 <=? analyze text w)%Z
              then {| active := true; removals := S (removals indicator) |}
              else indicator)
           (emergence_indicator (document w))
    /\ (forall indicator,
           emergence_indicator (document w) = Some indicator ->
           (45 <= analyze text w)%Z ->
           emergence_indicator (document (exec indicator_timeout w'))
           = Some {| active := false; removals := removals indicator |}).
Proof.
  intros text w w'.
  assert (H5 : (analyze text w mod 5 = 0)%Z).
  { rewrite analyze_score.
    set (a := total_matches emergenceKeywords (toLowerCase text)).
    set (b := total_matches surpriseWords (toLowerCase text)).
    destruct (Z.min_spec (15 * a + b * 10) 100) as [[_ ->] | [_ ->]];
      [|reflexivity].
    replace (15 * a + b * 10)%Z with ((3 * a + 2 * b) * 5)%Z by lia.
    apply Z.mod_mul. lia. }
  split; [exact H5|].
  destruct (analyzeMessage_world text w) as (w2 & E & _ & _ & _ & Hi).
  assert (Hb : (40 <? analyze text w)%Z = (45 <=? analyze text w)%Z).
  { apply Z.mod_divide in H5; [|lia]. destruct H5 as [k Hk]. rewrite Hk.
    destruct (Z.ltb_spec 40 (k * 5)), (Z.leb_spec 45 (k * 5)); lia. }
  rewrite Hb in Hi.
  assert (Hw : w' = w2) by (unfold w', exec; now rewrite E).
  rewrite Hw. split; [exact Hi|].
  intros indicator Hsome H45. apply Z.leb_le in H45.
  rewrite Hsome, H45 in Hi. cbn [option_map] in Hi.
  unfold indicator_timeout, exec, modify_document. cbn [snd document].
  rewrite Hi. reflexivity.
Qed.

(** ** Occurrences that overlap *)

Lemma starts_with_shorter a b rest :
  starts_with a (b ++ rest) = true -> length b <= length a ->
  starts_with b a = true.
Proof.
  revert a. induction b as [|x b IH]; intros a H Hlen; [reflexivity|].
  destruct a as [|y a]; [cbn in Hlen; lia|].
  cbn [app starts_with] in *. apply andb_true_iff in H. destruct H as [Hxy H].
  apply N.eqb_eq in Hxy. subst y. rewrite N.eqb_refl. cbn [andb].
  apply IH; [assumption | cbn in Hlen; lia].
Qed.

Lemma border_free_no_overlap keyword s j :
  border_free keyword = true -> starts_with keyword s = true ->
  0 < j < length keyword -> starts_with keyword (skipn j s) = false.
Proof.
  intros Hfree Hs Hj. apply starts_with_app in Hs. destruct Hs as [rest ->].
  rewrite skipn_app. replace (j - length keyword) with 0 by lia.
  cbn [skipn].
  destruct (starts_with keyword (skipn j keyword ++ rest)) eqn:E; [|reflexivity].
  apply starts_with_shorter in E; [|rewrite length_skipn; lia].
  unfold border_free in Hfree. rewrite forallb_forall in Hfree.
  assert (Hin : In j (seq 1 (length keyword - 1))) by (apply in_seq; lia).
  apply Hfree in Hin. rewrite E in Hin. discriminate.
Qed.

Lemma all_occurrences_skip keyword k s :
  (forall j, j < k -> starts_with keyword (skipn j s) = false) ->
  all_occurrences keyword s = all_occurrences keyword (skipn k s).
Proof.
  revert s. induction k as [|k IH]; intros s H; [reflexivity|].
  destruct s as [|c s]; [reflexivity|].
  cbn [all_occurrences skipn].
  pose proof (H 0 ltac:(lia)) as H0. cbn [skipn] in H0. rewrite H0.
  cbn [Nat.add].
  apply IH. intros j Hj. apply (H (S j)). lia.
Qed.

Lemma occurrences_all keyword s :
  border_free keyword = true -> keyword <> [] ->
  occurrences keyword s = all_occurrences keyword s.
Proof.
  funelim (occurrences keyword s); intros Hfree Hne.
  - destruct keyword; [contradiction | reflexivity].
  - cbn [all_occurrences]. rewrite Heq. cbn [Nat.add]. f_equal.
    rewrite H by assumption. symmetry. apply all_occurrences_skip.
    intros j Hj.
    apply (@border_free_no_overlap keyword (c :: s') (S j)); auto.
    destruct keyword; [contradiction | cbn [length] in *; lia].
  - cbn [all_occurrences]. rewrite Heq. cbn [Nat.add]. now apply H.
Qed.

Lemma words_border_free :
  Forall (fun word => word = js "wow" \/ border_free word = true)
         (emergenceKeywords ++ surpriseWords).
Proof.
  repeat (constructor;
          [first [right; vm_compute; reflexivity | left; reflexivity]|]).
  constructor.
Qed.

Section Overlaps.
Context {host : Host}.

Hypothesis toLowerCase_latin1 :
  forall s, Forall (fun c => (c < 256)%N) s -> toLowerCase s = map Latin1.lower s.
Hypothesis Canonicalize_lowered : forall s, folded (toLowerCase s).

(** X15: for every keyword and marker but [wow], the number of matches
    is the number of places where the word occurs in the lower-cased
    text: two occurrences of such a word cannot overlap, and none is
    lost.  Two occurrences of [wow] can share a [w], and then count
    once: [wowow] holds one match. *)
Theorem every_occurrence_is_matched :
  (forall word text,
      In word (emergenceKeywords ++ surpriseWords) ->
      word <> js "wow" ->
      matches (toLowerCase text) word
      = Z.of_nat (all_occurrences word (toLowerCase text)))
  /\ matches (toLowerCase (js "wowow")) (js "wow") = 1%Z
  /\ all_occurrences (js "wow") (toLowerCase (js "wowow")) = 2.
Proof.
  split; [|split].
  - intros word text Hin Hwow.
    pose proof (words_in_alphabet (incl_refl _)) as Hwords.
    rewrite Forall_forall in Hwords. destruct (Hwords word Hin) as [Hne Hincl].
    pose proof words_border_free as Hfree. rewrite Forall_forall in Hfree.
    destruct (Hfree word Hin) as [|Hf]; [contradiction|].
    rewrite matches_occurrences by auto. f_equal.
    now apply occurrences_all.
  - pose proof (words_in_alphabet (incl_refl _)) as Hwords.
    rewrite Forall_forall in Hwords.
    destruct (Hwords (js "wow")) as [Hne Hincl]; [vm_compute; tauto|].
    rewrite matches_occurrences by auto.
    rewrite toLowerCase_latin1 by (apply latin1_check; vm_compute; reflexivity).
    vm_compute. reflexivity.
  - rewrite toLowerCase_latin1 by (apply latin1_check; vm_compute; reflexivity).
    vm_compute. reflexivity.
Qed.

End Overlaps.

Lemma every_occurrence_is_matched_witness :
  In (js "emergent") (emergenceKeywords ++ surpriseWords)
  /\ js "emergent" <> js "wow"
  /\ matches (toLowerCase (js "Emergent, EMERGENT!")) (js "emergent") = 2%Z.
Proof.
  assert (Hin : In (js "emergent") (emergenceKeywords ++ surpriseWords))
    by (vm_compute; tauto).
  assert (Hne : js "emergent" <> js "wow") by discriminate.
  split; [exact Hin|]. split; [exact Hne|].
  exact (proj1 (@every_occurrence_is_matched Latin1.host
                  Latin1Facts.toLowerCase_latin1
                  Latin1Facts.Canonicalize_lowered)
               (js "emergent") (js "Emergent, EMERGENT!") Hin Hne).
Defined.

(** ** The timer *)

Lemma two_digits (n : nat) :
  n < 60 ->
  String_padStart (Number_toString (Z.of_nat n)) 2 (js "0")
  = [Z.to_N (48 + Z.of_nat n / 10); Z.to_N (48 + Z.of_nat n mod 10)].
Proof.
  intros H. do 60 (destruct n as [|n]; [vm_compute; reflexivity|]). lia.
Qed.

(** X16: once the start time is set, the timer stores the whole seconds
    elapsed and shows the minutes, a colon and the seconds of the
    minute, always as two digits between 00 and 59; minutes and seconds
    add up to the seconds stored, and nothing else changes. *)
Theorem timer_shows_minutes_and_seconds :
  forall w start now,
    startTime (appState w) = Some start ->
    start <> 0%Z ->
    (start <= now)%Z ->
    let elapsed := ((now - start) / 1000)%Z in
    let minutes := (elapsed / 60)%Z in
    let seconds := (elapsed mod 60)%Z in
    tick now w
    = (Normal (Some (Number_toString minutes ++ js ":"
                     ++ [Z.to_N (48 + seconds / 10);
                         Z.to_N (48 + seconds mod 10)])),
       {| appState := set_sessionTime elapsed (appState w);
          document := document w |})
    /\ (0 <= seconds < 60)%Z
    /\ (60 * minutes + seconds = elapsed)%Z
    /\ (0 <= now - start - 1000 * elapsed < 1000)%Z.
Proof.
  intros w start now Hstart Hnz Hle elapsed minutes seconds.
  assert (He : (0 <= elapsed)%Z) by (apply Z.div_pos; lia).
  assert (Hs : (0 <= seconds < 60)%Z) by (apply Z.mod_pos_bound; lia).
  split; [|split; [exact Hs|split]].
  - unfold tick. run. rewrite Hstart.
    destruct (Z.eqb_spec start 0) as [|_]; [contradiction|].
    run. unfold ret. fold elapsed. f_equal. f_equal. f_equal.
    unfold timer_text. fold minutes. f_equal. f_equal.
    rewrite Z.rem_mod_nonneg by lia. fold seconds.
    rewrite <- (Z2Nat.id seconds) by lia.
    apply two_digits. lia.
  - unfold minutes, seconds. rewrite (Z.div_mod elapsed 60) at 3 by lia.
    reflexivity.
  - unfold elapsed.
    pose proof (Z.mod_pos_bound (now - start) 1000 ltac:(lia)) as Hm.
    rewrite (Z.div_mod (now - start) 1000) at 1 3 by lia. lia.
Qed.

Lemma timer_shows_minutes_and_seconds_witness :
  let w := exec (init 1700000000000) loaded in
  startTime (appState w) = Some 1700000000000%Z
  /\ fst (tick 1700000125999 w) = Normal (Some (js "2:05"))
  /\ sessionTime (appState (snd (tick 1700000125999 w))) = 125%Z.
Proof.
  intros w.
  assert (H1 : startTime (appState w) = Some 1700000000000%Z) by reflexivity.
  assert (H2 : 1700000000000%Z <> 0%Z) by discriminate.
  assert (H3 : (1700000000000 <= 1700000125999)%Z) by lia.
  pose proof (proj1 (@timer_shows_minutes_and_seconds w 1700000000000
                       1700000125999 H1 H2 H3)) as H.
  split; [exact H1|]. rewrite H. split; reflexivity.
Defined.

(** X17: while the start time is not set, or is 0, the timer changes
    nothing and shows nothing; and when the clock has been set back
    behind the start time, the seconds stored are negative and the text
    shown begins with a minus sign. *)
Theorem timer_without_start_and_before_it :
  (forall w now,
      startTime (appState w) = None \/ startTime (appState w) = Some 0%Z ->
      tick now w = (Normal None, w))
  /\ (forall w start now,
         startTime (appState w) = Some start ->
         start <> 0%Z ->
         (now < start)%Z ->
         exists rest,
           fst (tick now w) = Normal (Some (45%N :: rest))
           /\ (sessionTime (appState (snd (tick now w))) < 0)%Z).
Proof.
  split.
  - intros w now [H|H]; unfold tick; run; rewrite H; reflexivity.
  - intros w start now Hstart Hnz Hlt.
    unfold tick. run. rewrite Hstart.
    destruct (Z.eqb_spec start 0) as [|_]; [contradiction|].
    run. unfold ret. cbn [fst snd appState sessionTime set_sessionTime].
    assert (He : ((now - start) / 1000 < 0)%Z)
      by (apply Z.div_lt_upper_bound; lia).
    unfold timer_text.
    assert (Hm : ((now - start) / 1000 / 60 < 0)%Z)
      by (apply Z.div_lt_upper_bound; lia).
    unfold Number_toString at 1.
    destruct ((now - start) / 1000 / 60)%Z as [|p|p] eqn:E; try lia.
    cbn [Z.to_int app]. eexists. split; [reflexivity | exact He].
Qed.

Lemma timer_without_start_and_before_it_witness :
  let w := exec (init 1700000000000) loaded in
  startTime (appState loaded) = None
  /\ tick 1700000125999 loaded = (Normal None, loaded)
  /\ fst (tick 1699999999999 w) = Normal (Some (js "-1:-1")).
Proof.
  intros w.
  assert (H0 : startTime (appState loaded) = None
               \/ startTime (appState loaded) = Some 0%Z) by (left; reflexivity).
  split; [reflexivity|]. split.
  - exact (proj1 timer_without_start_and_before_it loaded 1700000125999%Z H0).
  - vm_compute. reflexivity.
Defined.


(** ** The further properties on a session of the Latin-1 host *)

Module Latin1Markup.

Import Latin1.

Lemma start_tag_head i : exists tail, start_tag i = 60%N :: 105%N :: tail.
Proof. eexists. reflexivity. Qed.

(** The markup of a plain text holds no element. *)
Lemma plain_markup i content :
  plain content -> without_element i (replace_newlines content) = None.
Proof.
  cbn [without_element host]. destruct (start_tag_head i) as [tail ->].
  induction content as [|c content IH]; intros Hplain; [reflexivity|].
  assert (Hrest : cut_element (60%N :: 105%N :: tail) (replace_newlines content)
                  = None).
  { apply IH. intros Hin. apply Hplain. now right. }
  cbn [replace_newlines]. destruct (N.eqb_spec c LF) as [->|Hne].
  - change (js "<br>") with [60%N; 98%N; 114%N; 62%N].
    cbn [app cut_element begins N.eqb Pos.eqb andb]. now rewrite Hrest.
  - cbn [cut_element begins].
    destruct (N.eqb_spec 60 c) as [<-|_]; [exfalso; apply Hplain; now left|].
    cbn [andb]. now rewrite Hrest.
Qed.

Lemma TypeError_plain property :
  plain property -> plain (TypeError_message property).
Proof.
  intros H. cbn [TypeError_message host].
  apply plain_app; [unfold plain; vm_compute; intuition discriminate|].
  apply plain_app; [exact H|]. unfold plain. vm_compute. intuition discriminate.
Qed.

End Latin1Markup.

Lemma exchange_is_plain : is_plain exchange.
Proof.
  split; [|intros contents]; unfold plain; vm_compute; intuition discriminate.
Qed.

Lemma unanswered_is_plain : is_plain unanswered.
Proof.
  split; [|intros contents]; unfold plain; vm_compute; intuition discriminate.
Qed.

Lemma unanswered_is_unanswered : is_unanswered unanswered.
Proof. split; [reflexivity|]. intros contents. eexists. reflexivity. Qed.

Lemma exchange_is_answered : is_answered exchange.
Proof. split; [reflexivity|]. intros contents. eexists. reflexivity. Qed.

Lemma repeat_Forall {A} (P : A -> Prop) a n : P a -> Forall P (repeat a n).
Proof.
  intros H. apply Forall_forall. intros x Hx. apply repeat_spec in Hx.
  now subst x.
Qed.

Lemma greeted_typing_idle text : idle (typing text greeted).
Proof.
  apply typing_idle. exact (greeting_idle Latin1Markup.plain_markup).
Qed.

Lemma ignored_message_changes_nothing_witness :
  let w := typing (js "   ") greeted in
  Forall (fun c => isWhiteSpace c = true) (chat_input (document w))
  /\ sendMessage (answering (js "Wow!")) w = (Normal tt, w).
Proof.
  intros w.
  assert (H : Forall (fun c => isWhiteSpace c = true) (chat_input (document w)))
    by (repeat constructor).
  split; [exact H|].
  exact (@ignored_message_changes_nothing Latin1.host w (answering (js "Wow!"))
           (or_introl H)).
Defined.

Lemma user_turn_is_the_trimmed_input_witness :
  let w := typing (js "  Was ist neu? ") greeted in
  passes_guard w
  /\ History (requesting w)
     = History w ++ [{| role := user; content := js "Was ist neu?" |}].
Proof.
  intros w.
  assert (G : passes_guard w) by (apply greeted_guard; reflexivity).
  split; [exact G|].
  exact (proj1 (@user_turn_is_the_trimmed_input Latin1.host w G)).
Defined.

Lemma request_is_the_whole_history_witness :
  let w := typing (js "Hallo?") greeted in
  let picky : Collaborator :=
    fun contents =>
      if length contents =? 2 then Resolved (js "Wow!")
      else Rejected {| error_message := js "unexpected request" |} in
  passes_guard w
  /\ sendMessage picky w = sendMessage (answering (js "Wow!")) w
  /\ History (exec (sendMessage picky) w)
     <> History (exec (sendMessage (answering (js "Neu!"))) w)
  /\ History (exec (sendMessage picky) w)
     <> History (exec (sendMessage (failing (js "quota exceeded"))) w).
Proof.
  intros w picky.
  assert (G : passes_guard w) by (apply greeted_guard; reflexivity).
  split; [exact G|].
  destruct (@request_is_the_whole_history Latin1.host w picky
              (answering (js "Wow!")) G) as (H1 & _).
  destruct (@request_is_the_whole_history Latin1.host w picky
              (answering (js "Neu!")) G) as (_ & _ & H3 & _).
  destruct (@request_is_the_whole_history Latin1.host w picky
              (failing (js "quota exceeded")) G) as (_ & _ & _ & H4).
  split; [exact (H1 eq_refl)|]. split.
  - apply (H3 (Str (js "Wow!")) (Str (js "Neu!")) eq_refl eq_refl).
    discriminate.
  - exact (H4 (Str (js "Wow!")) {| error_message := js "quota exceeded" |}
              eq_refl eq_refl).
Defined.

Lemma no_second_request_witness :
  let w := typing (js "Hallo?") greeted in
  passes_guard w
  /\ History (exec (sendSuggestion (js "Noch da?") (answering (js "Wow!")))
                   (requesting w))
     = History (requesting w).
Proof.
  intros w.
  assert (G : passes_guard w) by (apply greeted_guard; reflexivity).
  split; [exact G|]. unfold exec.
  rewrite (@no_second_request Latin1.host w (js "Noch da?")
             (answering (js "Wow!")) G).
  reflexivity.
Defined.

Lemma toModelFormat_is_faithful_witness :
  let history := [{| role := assistant; content := js "Wow!" |};
                  {| role := user; content := js "Hallo?" |}] in
  nth_error history 0 = Some {| role := assistant; content := js "Wow!" |}
  /\ nth_error (toModelFormat history) 0
     = Some {| content_role := role_model; parts := [Str (js "Wow!")] |}.
Proof.
  intros history.
  assert (H : nth_error history 0
              = Some {| role := assistant; content := js "Wow!" |})
    by reflexivity.
  split; [exact H|].
  pose proof (proj1 (proj2 toModelFormat_is_faithful) history 0
                {| role := assistant; content := js "Wow!" |} H) as P.
  cbn [role content] in P. exact P.
Defined.

Lemma answered_message_effect_witness :
  let w := typing (js " Hallo? ") greeted in
  let w' := exec (sendMessage (answering (js "Wow, das ist neu!"))) w in
  idle w
  /\ plain (js "Hallo?")
  /\ plain (js "Wow, das ist neu!")
  /\ transcript w'
     = transcript greeted ++ [messageDiv (js "Hallo?") human;
                              messageDiv (js "Wow, das ist neu!") ai]
  /\ emergenceScore (appState w') = 35%Z.
Proof.
  intros w w'.
  assert (Hi : idle w) by apply greeted_typing_idle.
  assert (P1 : plain (js "Hallo?"))
    by (unfold plain; vm_compute; intuition discriminate).
  assert (P2 : plain (js "Wow, das ist neu!"))
    by (unfold plain; vm_compute; intuition discriminate).
  destruct (@answered_message_effect Latin1.host Latin1Markup.plain_markup w
              (answering (js "Wow, das ist neu!")) (js "Wow, das ist neu!")
              Hi eq_refl P1 P2 eq_refl) as (H1 & _ & H3 & _).
  split; [exact Hi|]. split; [exact P1|]. split; [exact P2|].
  split; [exact H1|].
  fold w' in H3. rewrite H3. vm_compute. reflexivity.
Defined.

Lemma failed_message_effect_witness :
  let w := typing (js " Hallo? ") greeted in
  let error := {| error_message := js "quota exceeded" |} in
  let w' := exec (sendMessage (failing (js "quota exceeded"))) w in
  idle w
  /\ plain (js "Hallo?")
  /\ plain (error_message error)
  /\ transcript w'
     = transcript greeted ++ [messageDiv (js "Hallo?") human;
                              messageDiv (api_error_text error) system;
                              messageDiv (retry_error_text error) system]
  /\ emergenceScore (appState w') = emergenceScore (appState w).
Proof.
  intros w error w'.
  assert (Hi : idle w) by apply greeted_typing_idle.
  assert (P1 : plain (js "Hallo?"))
    by (unfold plain; vm_compute; intuition discriminate).
  assert (P2 : plain (error_message error))
    by (unfold plain; vm_compute; intuition discriminate).
  destruct (@failed_message_effect Latin1.host Latin1Markup.plain_markup w
              (failing (js "quota exceeded")) error Hi eq_refl P1 P2 eq_refl)
    as (H1 & _ & H3 & _).
  split; [exact Hi|]. split; [exact P1|]. split; [exact P2|].
  split; [exact H1 | exact H3].
Defined.

Lemma session_is_idle_witness :
  falsy (String_trim (js "Und jetzt?")) = false
  /\ Forall is_plain (repeat exchange 11 ++ [unanswered])
  /\ idle (session (repeat exchange 11 ++ [unanswered]))
  /\ 2 <= length (toModelFormat
                    (History (requesting
                                (typing (js "Und jetzt?")
                                        (session (repeat exchange 11 ++ [unanswered])))))).
Proof.
  assert (H : falsy (String_trim (js "Und jetzt?")) = false) by reflexivity.
  assert (P : Forall is_plain (repeat exchange 11 ++ [unanswered])).
  { apply Forall_app. split; [apply repeat_Forall, exchange_is_plain|].
    constructor; [exact unanswered_is_plain | constructor]. }
  destruct (@session_is_idle Latin1.host Latin1Markup.plain_markup
              Latin1Markup.TypeError_plain (repeat exchange 11 ++ [unanswered]))
    as (_ & _ & H3 & H4).
  split; [exact H|]. split; [exact P|]. split; [exact (H4 P) | exact (H3 _ H)].
Defined.

Lemma transcript_only_grows_witness :
  Forall is_plain (repeat exchange 11)
  /\ Forall is_plain [unanswered]
  /\ exists more,
       transcript (session (repeat exchange 11 ++ [unanswered]))
       = transcript (session (repeat exchange 11)) ++ more
       /\ length more <= 3.
Proof.
  assert (P1 : Forall is_plain (repeat exchange 11))
    by apply repeat_Forall, exchange_is_plain.
  assert (P2 : Forall is_plain [unanswered])
    by (constructor; [exact unanswered_is_plain | constructor]).
  split; [exact P1|]. split; [exact P2|].
  exact (@transcript_only_grows Latin1.host Latin1Markup.plain_markup
           Latin1Markup.TypeError_plain _ _ P1 P2).
Defined.

Lemma unanswered_messages_accumulate_witness :
  Forall is_unanswered (repeat unanswered 40)
  /\ Forall is_plain (repeat unanswered 40)
  /\ length (History (session (repeat unanswered 40))) = 41
  /\ length (transcript (session (repeat unanswered 40))) = 121.
Proof.
  assert (H : Forall is_unanswered (repeat unanswered 40))
    by apply repeat_Forall, unanswered_is_unanswered.
  assert (P : Forall is_plain (repeat unanswered 40))
    by apply repeat_Forall, unanswered_is_plain.
  split; [exact H|]. split; [exact P|].
  destruct (@unanswered_messages_accumulate Latin1.host
              Latin1Markup.plain_markup Latin1Markup.TypeError_plain _ H)
    as [H1 H2].
  split; [exact H1 | exact (H2 P)].
Defined.

Lemma answered_session_length_witness :
  Forall is_answered (repeat exchange 12)
  /\ length (History (session (repeat exchange 12))) = 18.
Proof.
  assert (H : Forall is_answered (repeat exchange 12))
    by apply repeat_Forall, exchange_is_answered.
  split; [exact H|].
  exact (proj1 (@answered_session_length Latin1.host _ H)).
Defined.

Lemma indicator_lights_from_45_witness :
  let text := js "Wow, das ist NEU und kreativ!" in
  let w' := exec (analyzeMessage text) greeted in
  emergence_indicator (document greeted)
  = Some {| active := false; removals := 0 |}
  /\ (45 <= analyze text greeted)%Z
  /\ emergence_indicator (document w')
     = Some {| active := true; removals := 1 |}
  /\ emergence_indicator (document (exec indicator_timeout w'))
     = Some {| active := false; removals := 0 |}.
Proof.
  intros text w'.
  assert (H0 : emergence_indicator (document greeted)
               = Some {| active := false; removals := 0 |}) by reflexivity.
  assert (H45 : (45 <= analyze text greeted)%Z) by (vm_compute; discriminate).
  destruct (@indicator_lights_from_45 Latin1.host text greeted)
    as (_ & _ & H3).
  split; [exact H0|]. split; [exact H45|].
  split; [vm_compute; reflexivity|].
  exact (H3 _ H0 H45).
Defined.

(** A typed text that holds an element with the id of the thinking
    message: [getElementById] finds that element first, so it is what
    [hideThinkingMessage] removes, and the thinking message stays in
    the transcript. *)
Remark typed_element_is_removed_instead :
  let markup := Latin1.start_tag thinking_message ++ js "x</i>" in
  let w' := exec (sendMessage (answering (js "Wow!"))) (typing markup greeted) in
  transcript w'
  = transcript greeted
    ++ [{| className := message human; innerHTML := [] |};
        thinkingDiv;
        messageDiv (js "Wow!") ai]
  /\ ~ idle w'.
Proof.
  intros markup w'.
  assert (H : transcript w'
              = transcript greeted
                ++ [{| className := message human; innerHTML := [] |};
                    thinkingDiv;
                    messageDiv (js "Wow!") ai])
    by (vm_compute; reflexivity).
  split; [exact H|].
  intros (_ & children & Hc & Hall).
  assert (E : children = transcript w') by (unfold transcript; now rewrite Hc).
  rewrite E, H in Hall. apply Forall_app in Hall. destruct Hall as [_ Hall].
  inversion Hall as [|? ? _ Hrest]; subst.
  inversion Hrest as [|? ? [Hthinking _] _]; subst.
  now apply Hthinking.
Qed.

(** A response without text: the request is reported as failed, and
    yet the history keeps a turn of the model, whose content is
    [undefined], behind the turn of the user. *)
Lemma textless_response_counterexample :
  let w := typing (js "Hallo?") greeted in
  let w' := exec (@sendMessage Latin1.host textless) w in
  passes_guard w
  /\ textless (toModelFormat (History w ++ [userTurn w])) = Resolved Undefined
  /\ system_entries w' = system_entries w + 2
  /\ History w'
     = History w ++ [userTurn w; {| role := assistant; content := Undefined |}]
  /\ History w' <> History w ++ [userTurn w]
  /\ last (History w') (userTurn w) <> userTurn w.
Proof.
  intros w w'. split; [apply greeted_guard; reflexivity|].
  split; [reflexivity|]. split; [vm_compute; reflexivity|].
  assert (H : History w'
              = History w
                ++ [userTurn w; {| role := assistant; content := Undefined |}])
    by (vm_compute; reflexivity).
  split; [exact H|]. rewrite H. split.
  - intros E. apply (f_equal (@length Turn)) in E. vm_compute in E.
    discriminate.
  - vm_compute. discriminate.
Qed.
